(** * RAII wrappers of espeak-ng-example: boni.hpp, espeak-ng.hpp, sdl2.hpp, main.cpp

    A shallow embedding of the wrappers and of the synthesis callback.
    Calls into the C libraries are recorded in a log, so that "the release
    function ran n times with argument h" is a statement about that log. *)

From Stdlib Require Import ZArith Ascii Lia.
From stdpp Require Import base decidable list strings numbers.

Local Open Scope Z_scope.

(** ** The fragment of C++ the sources rely on *)

Module Cxx.

(** How the evaluation of a statement ends: it completes with a value, it
    leaves by [throw std::runtime_error(what)], a failed [assert] calls
    [abort], or it has no defined behaviour (a read past an array). *)
Inductive outcome (A : Type) : Type :=
| Returned (a : A)
| Raised (what : string)
| Aborted
| Undefined.
Arguments Returned {A} a.
Arguments Raised {A} what.
Arguments Aborted {A}.
Arguments Undefined {A}.

(** A computation over a state [W]; the state survives a [throw]. *)
Definition M (W A : Type) : Type := W -> outcome A * W.

Definition ret {W A} (a : A) : M W A := fun w => (Returned a, w).

Definition bind {W A B} (c : M W A) (k : A -> M W B) : M W B :=
  fun w =>
    match c w with
    | (Returned a, w1) => k a w1
    | (Raised what, w1) => (Raised what, w1)
    | (Aborted, w1) => (Aborted, w1)
    | (Undefined, w1) => (Undefined, w1)
    end.

(** [throw std::runtime_error(what)] *)
Definition throw_runtime_error {W A} (what : string) : M W A :=
  fun w => (Raised what, w).

(** [assert(cond)] *)
Definition assert {W} (cond : bool) : M W unit :=
  fun w => if cond then (Returned tt, w) else (Aborted, w).

Definition undefined {W A} : M W A := fun w => (Undefined, w).

(** A call of a C function: it returns, and it may change the state. *)
Definition call {W A} (f : W -> A * W) : M W A :=
  fun w => let (a, w1) := f w in (Returned a, w1).

(** A statement of the enclosing block, run inside the block of a local
    object of type [T]. *)
Definition outer {T W A} (c : M W A) : M (T * W) A :=
  fun tw => let (r, w1) := c (snd tw) in (r, (fst tw, w1)).

(** A block [{ T obj{...}; body }]: the constructor runs; if it throws, the
    object never existed and no destructor runs. Otherwise the body runs
    with the object as additional state, and the destructor runs on the
    object as the body left it, whether the body completed or threw.
    An exception is taken to reach a handler further out, so that the stack
    unwinds ([main] itself has no handler; whether the stack unwinds for an
    exception nobody catches is left to the implementation). [abort] does
    not unwind. Destructors are [noexcept]. *)
Definition scoped {T W A}
    (ctor : M W T) (dtor : T -> W -> W) (body : M (T * W) A) : M W A :=
  fun w =>
    match ctor w with
    | (Returned obj, w1) =>
        match body (obj, w1) with
        | (Returned a, (obj', w2)) => (Returned a, dtor obj' w2)
        | (Raised what, (obj', w2)) => (Raised what, dtor obj' w2)
        | (Aborted, (_, w2)) => (Aborted, w2)
        | (Undefined, (_, w2)) => (Undefined, w2)
        end
    | (Raised what, w1) => (Raised what, w1)
    | (Aborted, w1) => (Aborted, w1)
    | (Undefined, w1) => (Undefined, w1)
    end.

(** Control left the block, by completing or by an exception, so that the
    objects of the block were destroyed. *)
Definition left_scope {A} (r : outcome A) : bool :=
  match r with
  | Returned _ | Raised _ => true
  | Aborted | Undefined => false
  end.

(** [T{}]: value initialisation (zero for integers, [nullptr] for
    pointers). *)
Class ValueInit (T : Type) : Type := value_init : T.

(** The named requirement NullablePointer, as far as [std::unique_ptr]
    uses it. *)
Class NullablePointer (P : Type) : Type := {
  np_null : P;                 (* P{} and P(nullptr) *)
  np_eq : P -> P -> bool;      (* a == b *)
  np_bool : P -> bool;         (* contextual conversion to bool *)
  np_bool_spec : forall p, np_bool p = negb (np_eq p np_null);
  np_eq_refl : forall p, np_eq p p = true
}.

Definition np_ne {P} `{NullablePointer P} (a b : P) : bool :=
  negb (np_eq a b).

End Cxx.

Import Cxx.

Declare Scope cxx_scope.
Delimit Scope cxx_scope with cxx.
Notation "x <- c1 ;; c2" := (bind c1 (fun x => c2))
  (at level 100, c1 at next level, right associativity) : cxx_scope.
Notation "c1 ;; c2" := (bind c1 (fun _ => c2))
  (at level 100, right associativity) : cxx_scope.

#[global] Instance Z_value_init : ValueInit Z := 0.

(** A raw pointer, as an address; [nullptr] is address zero. *)
#[global] Instance Z_nullable_pointer : NullablePointer Z := {|
  np_null := 0;
  np_eq a b := bool_decide (a = b);
  np_bool p := negb (bool_decide (p = 0));
  np_bool_spec := fun _ => eq_refl;
  np_eq_refl := fun p => bool_decide_eq_true_2 (p = p) eq_refl
|}.

(** ** std::unique_ptr

    The members of [std::unique_ptr<T, Deleter>] that the wrappers inherit,
    following the effects the C++ standard gives for them
    ([unique.ptr.single]). The deleters of this program hold no data, so an
    owner's state is its stored pointer; [deleter p] is [get_deleter()(p)]. *)

Module Std.

Record unique_ptr (pointer : Type) : Type := { ptr : pointer }.
Arguments Build_unique_ptr {pointer} ptr.
Arguments ptr {pointer} u.

Section UniquePtr.
Context {W pointer : Type} `{NullablePointer pointer}.
Variable deleter : pointer -> W -> W.

(** [constexpr unique_ptr() noexcept]: value-initialises the pointer. *)
Definition unique_ptr_default : unique_ptr pointer := {| ptr := np_null |}.

(** [explicit unique_ptr(pointer p) noexcept] *)
Definition unique_ptr_from (p : pointer) : unique_ptr pointer := {| ptr := p |}.

(** [pointer get() const noexcept] *)
Definition get (u : unique_ptr pointer) : pointer := ptr u.

(** [explicit operator bool() const noexcept]: [get() != nullptr] *)
Definition operator_bool (u : unique_ptr pointer) : bool :=
  np_ne (get u) np_null.

(** [pointer release() noexcept]: the stored pointer, and the owner left
    holding [pointer()]. *)
Definition release (u : unique_ptr pointer) : pointer * unique_ptr pointer :=
  (get u, {| ptr := np_null |}).

(** [void reset(pointer p = pointer()) noexcept]: stores [p], then
    [if (old_p) get_deleter()(old_p);] *)
Definition reset (p : pointer) (u : unique_ptr pointer) (w : W)
    : unique_ptr pointer * W :=
  let old_p := ptr u in
  ({| ptr := p |}, if np_bool old_p then deleter old_p w else w).

(** [~unique_ptr()]: [if (get()) get_deleter()(get());] *)
Definition destructor (u : unique_ptr pointer) (w : W) : W :=
  if np_bool (get u) then deleter (get u) w else w.

(** [unique_ptr(unique_ptr&& u) noexcept]: the new owner and the source as
    the move leaves it. *)
Definition move_construct (u : unique_ptr pointer)
    : unique_ptr pointer * unique_ptr pointer :=
  let (p, u') := release u in (unique_ptr_from p, u').

(** [unique_ptr& operator=(unique_ptr&& u) noexcept]: [reset(u.release())];
    the destination, the source and the state afterwards. *)
Definition move_assign (dst src : unique_ptr pointer) (w : W)
    : unique_ptr pointer * unique_ptr pointer * W :=
  let (p, src') := release src in
  let (dst', w') := reset p dst w in
  (dst', src', w').
End UniquePtr.

End Std.

(** ** boni.hpp *)

Module Boni.

(** [template <typename handle_type, handle_type null_value> class nullable]:
    the sentinel is part of the type. *)
Record nullable (handle_type : Type) (null_value : handle_type) : Type :=
  { value : handle_type }.
Arguments Build_nullable {handle_type} null_value value.
Arguments value {handle_type null_value} n.

Section Nullable.
Context {handle_type : Type} `{EqDecision handle_type}.
Context {null_value : handle_type}.

Abbreviation self_type := (nullable handle_type null_value).

(** [nullable() = default], with [handle_type value{null_value}] *)
Definition nullable_default : self_type := {| value := null_value |}.

(** [nullable(std::nullptr_t) : nullable{} {}] *)
Definition nullable_from_nullptr : self_type := nullable_default.

(** [nullable(handle_type new_value) : value{new_value} {}] *)
Definition nullable_from_handle (new_value : handle_type) : self_type :=
  {| value := new_value |}.

(** [explicit operator bool() const { return value != null_value; }] *)
Definition nullable_to_bool (n : self_type) : bool :=
  negb (bool_decide (value n = null_value)).

(** [operator handle_type() const { return value; }] *)
Definition nullable_to_handle (n : self_type) : handle_type := value n.

(** [friend bool operator==(self_type left, self_type right)] *)
Definition nullable_eq (left right : self_type) : bool :=
  bool_decide (nullable_to_handle left = nullable_to_handle right).

(** [friend bool operator!=(self_type left, self_type right)] *)
Definition nullable_ne (left right : self_type) : bool :=
  negb (nullable_eq left right).

#[global] Instance nullable_nullable_pointer : NullablePointer self_type := {|
  np_null := nullable_from_nullptr;
  np_eq := nullable_eq;
  np_bool := nullable_to_bool;
  np_bool_spec := fun _ => eq_refl;
  np_eq_refl := fun p => bool_decide_eq_true_2 (value p = value p) eq_refl
|}.
End Nullable.

(** What [auto_handle] needs of its [deleter_type]: the member types
    [pointer] and [handle_type], the conversion between them, and the call
    operator. Deleters hold no data. *)
Record deleter_type (W : Type) : Type := {
  handle_type : Type;
  pointer : Type;
  pointer_nullable : NullablePointer pointer;
  pointer_to_handle : pointer -> handle_type;
  deleter_call : pointer -> W -> W
}.
Arguments handle_type {W} d.
Arguments pointer {W} d.
Arguments pointer_nullable {W} d.
Arguments pointer_to_handle {W} d p.
Arguments deleter_call {W} d p w.
#[global] Existing Instance pointer_nullable.

Section NullableDeleter.
Context {W : Type}.
Context {handle_type_t : Type} `{EqDecision handle_type_t}.
Context `{ValueInit handle_type_t}.
(** template argument [destroy_function], of type pointer to
    [void(handle_type_t)] *)
Variable destroy_function : handle_type_t -> W -> W.

(** [using pointer = nullable<handle_type>;] the sentinel is the default
    template argument [handle_type{}]. *)
Definition nullable_deleter_pointer : Type :=
  nullable handle_type_t value_init.

(** [void operator()(pointer pointer_to_delete)] *)
Definition nullable_deleter_call
    (pointer_to_delete : nullable_deleter_pointer) (w : W) : W :=
  if nullable_eq pointer_to_delete nullable_default
  then destroy_function (nullable_to_handle pointer_to_delete) w
  else w.

Definition nullable_deleter : deleter_type W := {|
  handle_type := handle_type_t;
  pointer := nullable_deleter_pointer;
  pointer_nullable := nullable_nullable_pointer;
  pointer_to_handle := nullable_to_handle;
  deleter_call := nullable_deleter_call
|}.
End NullableDeleter.

Section UnsafeHandleDeleter.
Context {W : Type}.
Context {handle_type_t : Type} `{NullablePointer handle_type_t}.
Context {return_type : Type}.
(** template argument [destroy_function], of type pointer to
    [return_type(handle_type_t)] *)
Variable destroy_function : handle_type_t -> W -> return_type * W.

(** [void operator()(pointer handle_to_delete)], with
    [using pointer = handle_type;] the returned value is dropped. *)
Definition unsafe_handle_deleter_call
    (handle_to_delete : handle_type_t) (w : W) : W :=
  if np_eq handle_to_delete np_null
  then snd (destroy_function handle_to_delete w)
  else w.

Definition unsafe_handle_deleter : deleter_type W := {|
  handle_type := handle_type_t;
  pointer := handle_type_t;
  pointer_nullable := _;
  pointer_to_handle := fun p => p;
  deleter_call := unsafe_handle_deleter_call
|}.
End UnsafeHandleDeleter.

(** [using handle_deleter =
      unsafe_handle_deleter<handle_type, void, destroy_function>;] *)
Definition handle_deleter {W handle_type_t} `{NullablePointer handle_type_t}
    (destroy_function : handle_type_t -> W -> W) : deleter_type W :=
  unsafe_handle_deleter (return_type := unit)
    (fun h w => (tt, destroy_function h w)).

Section AutoHandle.
Context {W : Type}.
Variable deleter : deleter_type W.

(** [class auto_handle : public parent_type], with
    [parent_type = std::unique_ptr<pointer, deleter_type>] *)
Definition auto_handle : Type := Std.unique_ptr (pointer deleter).

(** [using parent_type::parent_type;] *)
Definition auto_handle_default : auto_handle := Std.unique_ptr_default.
Definition auto_handle_from (p : pointer deleter) : auto_handle :=
  Std.unique_ptr_from p.

(** [operator handle_type() const { return parent_type::get(); }]: the
    stored [pointer] converts to [handle_type]. *)
Definition auto_handle_to_handle (a : auto_handle) : handle_type deleter :=
  pointer_to_handle deleter (Std.get a).

(** The members and special members [auto_handle] takes over unchanged. *)
Definition auto_handle_get (a : auto_handle) : pointer deleter := Std.get a.
Definition auto_handle_bool (a : auto_handle) : bool := Std.operator_bool a.
Definition auto_handle_release (a : auto_handle)
    : pointer deleter * auto_handle := Std.release a.
Definition auto_handle_reset (p : pointer deleter) (a : auto_handle) (w : W)
    : auto_handle * W := Std.reset (deleter_call deleter) p a w.
Definition auto_handle_destructor (a : auto_handle) (w : W) : W :=
  Std.destructor (deleter_call deleter) a w.
Definition auto_handle_move_construct (a : auto_handle)
    : auto_handle * auto_handle := Std.move_construct a.
Definition auto_handle_move_assign (dst src : auto_handle) (w : W)
    : auto_handle * auto_handle * W :=
  Std.move_assign (deleter_call deleter) dst src w.
End AutoHandle.

(** The life of one owner, as the member functions called on it between its
    construction and its destruction. The first three are [const]. *)
Inductive member_call (W : Type) (deleter : deleter_type W) : Type :=
| call_get
| call_operator_bool
| call_to_handle
| call_release
| call_reset (p : pointer deleter)
| call_moved_from
| call_move_assigned (src : auto_handle deleter).
Arguments call_get {W deleter}.
Arguments call_operator_bool {W deleter}.
Arguments call_to_handle {W deleter}.
Arguments call_release {W deleter}.
Arguments call_reset {W deleter} p.
Arguments call_moved_from {W deleter}.
Arguments call_move_assigned {W deleter} src.

Definition is_const {W} {deleter : deleter_type W}
    (c : member_call W deleter) : bool :=
  match c with
  | call_get | call_operator_bool | call_to_handle => true
  | _ => false
  end.

(** The owner and the state after one member call; what the call returns is
    dropped. [call_moved_from] is the owner used as the source of a move. *)
Definition apply_member {W} {deleter : deleter_type W}
    (s : auto_handle deleter * W) (c : member_call W deleter)
    : auto_handle deleter * W :=
  let (a, w) := s in
  match c with
  | call_get => let _ := auto_handle_get deleter a in (a, w)
  | call_operator_bool => let _ := auto_handle_bool deleter a in (a, w)
  | call_to_handle => let _ := auto_handle_to_handle deleter a in (a, w)
  | call_release => (snd (auto_handle_release deleter a), w)
  | call_reset p => auto_handle_reset deleter p a w
  | call_moved_from => (snd (auto_handle_move_construct deleter a), w)
  | call_move_assigned src =>
      let '(a', _, w') := auto_handle_move_assign deleter a src w in (a', w')
  end.

(** A block in which an owner is constructed holding [p], the member calls
    are made, and the owner is destroyed. *)
Definition owner_lifetime {W} {deleter : deleter_type W}
    (p : pointer deleter) (calls : list (member_call W deleter)) (w : W) : W :=
  let (a, w') := fold_left apply_member calls (auto_handle_from deleter p, w) in
  auto_handle_destructor deleter a w'.

(** The member calls that neither replace an owner nor move from it. *)
Definition neither_replaces_nor_moves {W} {deleter : deleter_type W}
    (c : member_call W deleter) : bool :=
  match c with
  | call_reset _ | call_moved_from | call_move_assigned _ => false
  | _ => true
  end.

Section File.
Context {W : Type}.
(** [int std::fclose(FILE* stream)] *)
Variable fclose : Z -> W -> Z * W.

(** [using file_deleter = unsafe_handle_deleter<FILE*, int, std::fclose>;] *)
Definition file_deleter : deleter_type W := unsafe_handle_deleter fclose.

(** [using file = auto_handle<file_deleter>;] *)
Definition file : Type := auto_handle file_deleter.
End File.

(** A release function that records its argument, for a handle type [H]:
    the state is the list of the arguments it was called with, oldest
    first. *)
Definition recording_release {H : Type} (h : H) (log : list H) : list H :=
  log ++ [h].

End Boni.

Import Boni.

(** ** The C libraries: eSpeak NG, SDL2 and stdio

    The program's state is the list of the calls it has made into the
    libraries, oldest first, with the arguments of each. What a library
    answers is not fixed by this repository: it is a parameter, and it may
    depend on every call made before. *)

Module CLib.

(** [FILE*] streams the program writes to. *)
Inductive stream : Type := stderr.

#[global] Instance stream_eq_dec : EqDecision stream.
Proof. solve_decision. Defined.

(** [espeak_ng_STATUS]; [ENS_OK] is the success value. *)
Abbreviation espeak_ng_STATUS := Z.
Definition ENS_OK : espeak_ng_STATUS := 0.

(** [espeak_ng_ERROR_CONTEXT] is a pointer to a structure of the library. *)
Abbreviation espeak_ng_ERROR_CONTEXT := Z.
Definition nullptr : Z := 0.

(** [SDL_AudioDeviceID] is a [Uint32]. *)
Abbreviation SDL_AudioDeviceID := Z.

Inductive c_call : Type :=
| espeak_ng_Initialize
| espeak_ng_Terminate
| espeak_ng_PrintStatusCodeMessage
    (status : espeak_ng_STATUS) (out : stream)
    (context : espeak_ng_ERROR_CONTEXT)
  (* the argument is the address of a context; recorded is what the
     context holds when the call is made *)
| espeak_ng_ClearErrorContext (context : espeak_ng_ERROR_CONTEXT)
| fprintf (out : stream) (text : string)
| SDL_GetError
| SDL_SetMainReady
| SDL_Init (flags : Z)
| SDL_Quit
| SDL_QueueAudio (dev : SDL_AudioDeviceID) (data : Z) (len : Z)
| SDL_CloseAudioDevice (dev : SDL_AudioDeviceID).

#[global] Instance c_call_eq_dec : EqDecision c_call.
Proof. solve_decision. Defined.

Abbreviation log := (list c_call).

(** What the libraries answer, given the calls made so far. *)
Record libraries : Type := {
  (* the status, and what the call leaves in the context it was given *)
  Initialize_answer : log -> espeak_ng_STATUS * espeak_ng_ERROR_CONTEXT;
  Init_answer : log -> Z -> Z;
  GetError_answer : log -> string;
  QueueAudio_answer : log -> SDL_AudioDeviceID -> Z -> Z -> Z
}.

(** The line feed that ends a line of output. *)
Definition newline : string := String "010"%char EmptyString.

(** A call that answers nothing. *)
Definition record_call (c : c_call) (w : log) : log := w ++ [c].

Definition call_void (c : c_call) : M log unit :=
  call (fun w => (tt, record_call c w)).

(** A call whose answer comes from the library. *)
Definition call_answer {A} (c : c_call) (answer : log -> A) : M log A :=
  call (fun w => (answer w, record_call c w)).

(** How often a call occurs in a log. *)
Definition calls_of (c : c_call) (w : log) : nat :=
  length (filter (fun c' => c' = c) w).

(** Code run in the block of a local object that never makes the call
    [c]. *)
Definition makes_no_call {T A} (c : c_call) (body : M (T * log) A) : Prop :=
  forall s, calls_of c (snd (snd (body s))) = calls_of c (snd s).

End CLib.

Import CLib.

(** The two arguments of a call are evaluated one after the other, in an
    order the language leaves open. *)
Inductive argument_order : Type := LeftToRight | RightToLeft.

(** ** espeak-ng.hpp *)

Module EspeakNG.

Local Open Scope cxx_scope.

(** [void throw_if_not_ok(espeak_ng_STATUS code_to_check,
      espeak_ng_ERROR_CONTEXT current_error_context = nullptr)] *)
Definition throw_if_not_ok (code_to_check : espeak_ng_STATUS)
    (current_error_context : espeak_ng_ERROR_CONTEXT) : M log unit :=
  if negb (bool_decide (code_to_check = ENS_OK)) then
    call_void (espeak_ng_PrintStatusCodeMessage
                 code_to_check stderr current_error_context);;
    throw_runtime_error "eSpeak-NG error"
  else ret tt.

(** [class error_context], with [espeak_ng_ERROR_CONTEXT data{nullptr};] *)
Record error_context : Type := { data : espeak_ng_ERROR_CONTEXT }.

Definition error_context_default : error_context := {| data := nullptr |}.

(** [~error_context() { espeak_ng_ClearErrorContext(&data); }] *)
Definition error_context_destructor (this : error_context) (w : log) : log :=
  record_call (espeak_ng_ClearErrorContext (data this)) w.

(** [operator espeak_ng_ERROR_CONTEXT*()]: asserts [data == nullptr] and
    gives the address of [data]. The address is that of the local object of
    the enclosing block: a write through it changes the object in the
    state. *)
Definition error_context_to_pointer : M (error_context * log) unit :=
  fun s => assert (bool_decide (data (fst s) = nullptr)) s.

(** [espeak_ng_ERROR_CONTEXT operator*() { return data; }] *)
Definition error_context_deref
    : M (error_context * log) espeak_ng_ERROR_CONTEXT :=
  fun s => (Returned (data (fst s)), s).

Section Service.
Variable lib : libraries.
Variable order : argument_order.

(** [espeak_ng_Initialize(context)] with [context] the address of the local
    error context. *)
Definition Initialize_into_context : M (error_context * log) espeak_ng_STATUS :=
  fun s =>
    let (status, written) := Initialize_answer lib (snd s) in
    (Returned status,
     ({| data := written |}, record_call espeak_ng_Initialize (snd s))).

(** The first argument of [throw_if_not_ok] in [service()]. *)
Definition Initialize_argument : M (error_context * log) espeak_ng_STATUS :=
  error_context_to_pointer;; Initialize_into_context.

(** [class service] has no data members. *)
Inductive service : Type := Build_service.

(** [service() { error_context initialisation_error;
                 throw_if_not_ok(espeak_ng_Initialize(initialisation_error),
                                 *initialisation_error); }] *)
Definition service_constructor : M log service :=
  scoped (ret error_context_default) error_context_destructor
    (match order with
     | LeftToRight =>
         code_to_check <- Initialize_argument;;
         current_error_context <- error_context_deref;;
         outer (throw_if_not_ok code_to_check current_error_context)
     | RightToLeft =>
         current_error_context <- error_context_deref;;
         code_to_check <- Initialize_argument;;
         outer (throw_if_not_ok code_to_check current_error_context)
     end);;
  ret Build_service.

(** [~service() { espeak_ng_Terminate(); }] *)
Definition service_destructor (this : service) (w : log) : log :=
  record_call espeak_ng_Terminate w.

(** A block [{ espeak_ng::service service; body }]. *)
Definition with_service {A} (body : M (service * log) A) : M log A :=
  scoped service_constructor service_destructor body.
End Service.

(** A block [{ espeak_ng::error_context c; body }]. *)
Definition with_error_context {A} (body : M (error_context * log) A)
    : M log A :=
  scoped (ret error_context_default) error_context_destructor body.

End EspeakNG.

(** ** sdl2.hpp *)

Module SDL2.

Local Open Scope cxx_scope.

Section Lib.
Variable lib : libraries.

(** [void throw_if(const bool is_throwing)] *)
Definition throw_if (is_throwing : bool) : M log unit :=
  if is_throwing then
    message <- call_answer SDL_GetError (GetError_answer lib);;
    call_void (fprintf stderr (String.append message newline));;
    throw_runtime_error "SDL2 error"
  else ret tt.

(** [class service] has no data members. *)
Inductive service : Type := Build_service.

(** Whether [SDL_MAIN_HANDLED] is defined where the header is included. *)
Variable SDL_MAIN_HANDLED : bool.

(** [service(uint32_t subsystem_flags)] *)
Definition service_constructor (subsystem_flags : Z) : M log service :=
  (if SDL_MAIN_HANDLED then call_void SDL_SetMainReady else ret tt);;
  status <- call_answer (SDL_Init subsystem_flags)
              (fun w => Init_answer lib w subsystem_flags);;
  throw_if (negb (bool_decide (0 = status)));;
  ret Build_service.

(** [~service() { SDL_Quit(); }] *)
Definition service_destructor (this : service) (w : log) : log :=
  record_call SDL_Quit w.

(** A block [{ sdl2::service s{subsystem_flags}; body }]. *)
Definition with_service {A} (subsystem_flags : Z)
    (body : M (service * log) A) : M log A :=
  scoped (service_constructor subsystem_flags) service_destructor body.
End Lib.

(** [using audio_device_deleter =
      boni::nullable_deleter<SDL_AudioDeviceID, SDL_CloseAudioDevice>;] *)
Definition audio_device_deleter : deleter_type log :=
  nullable_deleter (fun dev => record_call (SDL_CloseAudioDevice dev)).

(** [using audio_device = boni::auto_handle<audio_device_deleter>;] *)
Definition audio_device : Type := auto_handle audio_device_deleter.

End SDL2.

(** ** main.cpp *)

Module Main.

Local Open Scope cxx_scope.

(** [espeak_EVENT_TYPE], with the enumerators the [switch] lists. *)
Inductive espeak_EVENT_TYPE : Type :=
| espeakEVENT_LIST_TERMINATED
| espeakEVENT_WORD
| espeakEVENT_SENTENCE
| espeakEVENT_MARK
| espeakEVENT_PLAY
| espeakEVENT_END
| espeakEVENT_MSG_TERMINATED
| espeakEVENT_PHONEME
| espeakEVENT_SAMPLERATE.

#[global] Instance espeak_EVENT_TYPE_eq_dec : EqDecision espeak_EVENT_TYPE.
Proof. solve_decision. Defined.

(** [espeak_EVENT], with the members the callback reads. [user_data] is a
    [void*] that the callback takes for the address of an
    [sdl2::audio_device]: [None] is [nullptr], [Some d] the address of an
    owner that is in state [d] during the callback. *)
Record espeak_EVENT : Type := {
  type : espeak_EVENT_TYPE;
  user_data : option SDL2.audio_device
}.

(** [Uint32 len] of [SDL_QueueAudio], from the [int] expression
    [numsamples * 2]: the value modulo [2^32]. *)
Definition to_Uint32 (n : Z) : Z := n mod 2 ^ 32.

(** Whether a value fits an [int], of 32 bits. Arithmetic on [int] whose
    result does not fit has no defined behaviour. *)
Definition fits_int (n : Z) : bool := (- 2 ^ 31 <=? n) && (n <? 2 ^ 31).

(** The element that ends the list: the first one of type
    [espeakEVENT_LIST_TERMINATED], if there is one. *)
Definition terminator (events : list espeak_EVENT) : option espeak_EVENT :=
  List.find (fun e => bool_decide (type e = espeakEVENT_LIST_TERMINATED))
    events.


Section Lib.
Variable lib : libraries.

(** The [switch (event.type)] of the loop body: every label leads to
    [break]. *)
Definition switch_event_type (t : espeak_EVENT_TYPE) : M log unit :=
  match t with
  | espeakEVENT_LIST_TERMINATED
  | espeakEVENT_WORD
  | espeakEVENT_SENTENCE
  | espeakEVENT_MARK
  | espeakEVENT_PLAY
  | espeakEVENT_END
  | espeakEVENT_MSG_TERMINATED
  | espeakEVENT_PHONEME
  | espeakEVENT_SAMPLERATE => ret tt
  end.

(** [for (; events->type != espeakEVENT_LIST_TERMINATED; ++events) {...}]
    over the array [events] points into; the result is the element
    [events] points to when the loop ends. Stepping past the last element
    of the array is undefined. *)
Fixpoint for_events (events : list espeak_EVENT) : M log espeak_EVENT :=
  match events with
  | [] => undefined
  | event :: rest =>
      if negb (bool_decide (type event = espeakEVENT_LIST_TERMINATED)) then
        switch_event_type (type event);;
        for_events rest
      else ret event
  end.

(** [int SynthCallback(short* wav, int numsamples, espeak_EVENT* events)];
    [events] is [None] for [nullptr], else the array it points to. *)
Definition SynthCallback (wav : Z) (numsamples : Z)
    (events : option (list espeak_EVENT)) : M log Z :=
  assert (match events with Some _ => true | None => false end);;
  match events with
  | None => undefined
  | Some array =>
      event <- for_events array;;
      (if negb (bool_decide (wav = nullptr))
          && negb (bool_decide (numsamples = 0)) then
         match user_data event with
         | Some audio_device =>
             let dev := auto_handle_to_handle _ audio_device in
             (* [numsamples * 2] is a product of two [int] *)
             if fits_int (numsamples * 2) then
               let len := to_Uint32 (numsamples * 2) in
               status <- call_answer (SDL_QueueAudio dev wav len)
                           (fun w => QueueAudio_answer lib w dev wav len);;
               SDL2.throw_if lib (negb (bool_decide (0 = status)))
             else undefined
         | None => ret tt
         end
       else ret tt);;
      ret 0
  end.
End Lib.

End Main.

(** ** Stub libraries and callers for the scenarios *)

Module Scenario.

(** Every call succeeds; an error context stays null. *)
Definition lib_succeeds : libraries := {|
  Initialize_answer := fun _ => (ENS_OK, nullptr);
  Init_answer := fun _ _ => 0;
  GetError_answer := fun _ => EmptyString;
  QueueAudio_answer := fun _ _ _ _ => 0
|}.

(** Every call fails; [espeak_ng_Initialize] leaves a context at address
    4096. *)
Definition lib_fails : libraries := {|
  Initialize_answer := fun _ => (268435967, 4096);
  Init_answer := fun _ _ => -1;
  GetError_answer := fun _ => "No available audio device"%string;
  QueueAudio_answer := fun _ _ _ _ => -1
|}.

(** Code that raises an error of its own, inside the block of some object. *)
Definition later_error {T : Type} : M (T * log) unit :=
  outer (throw_runtime_error "later error").

(** Code that passes its error context to a failing [espeak_ng_Initialize]
    and then raises. *)
Definition populate_and_raise : M (EspeakNG.error_context * log) unit :=
  bind (EspeakNG.Initialize_argument lib_fails) (fun _ => later_error).

(** An event list as the callback receives it: one word event, then the
    terminator, both carrying the address of the owner of audio device 2. *)
Definition word_then_terminator : list Main.espeak_EVENT :=
  let device : SDL2.audio_device :=
    auto_handle_from SDL2.audio_device_deleter (nullable_from_handle 2) in
  [ {| Main.type := Main.espeakEVENT_WORD; Main.user_data := Some device |};
    {| Main.type := Main.espeakEVENT_LIST_TERMINATED;
       Main.user_data := Some device |} ].

End Scenario.

(** ** main.cpp: the program *)

Module Program.

Import Main.
Local Open Scope cxx_scope.

(** [SDL_AudioSpec], with the members [main] sets; [SDL_zero] leaves the
    others zero. *)
Record SDL_AudioSpec : Type := {
  freq : Z;
  format : Z;
  channels : Z;
  samples : Z
}.

#[global] Instance SDL_AudioSpec_eq_dec : EqDecision SDL_AudioSpec.
Proof. solve_decision. Defined.

(** The library calls that [main] makes itself. [espeak_SetSynthCallback] is
    given [SynthCallback], and the last argument of [espeak_ng_Synthesize]
    is the address of the local [audio_device]. *)
Inductive main_call : Type :=
| espeak_ng_InitializePath (path : Z)
| espeak_ng_InitializeOutput (output_mode buffer_length device : Z)
| espeak_ng_GetSampleRate
| SDL_OpenAudioDevice
    (device iscapture : Z) (desired : SDL_AudioSpec)
    (obtained allowed_changes : Z)
| espeak_SetSynthCallback
| espeak_ng_Synthesize
    (text : string)
    (size position position_type end_position flags unique_identifier : Z)
| SDL_PauseAudioDevice (dev : SDL_AudioDeviceID) (pause_on : Z)
| espeak_ng_Synchronize
| SDL_Delay (ms : Z).

#[global] Instance main_call_eq_dec : EqDecision main_call.
Proof. solve_decision. Defined.

(** A run of the program: every library call in the order made, those of
    the headers and of the callback on the left, those of [main] on the
    right. *)
Abbreviation run := (list (c_call + main_call)).

(** The calls of a run that the code of the headers knows. *)
Definition header_calls (d : run) : log :=
  omap (fun c => match c with inl c => Some c | inr _ => None end) d.

(** What a call records beyond the log [w] it started from. *)
Definition new_calls (w w' : log) : run := inl <$> drop (length w) w'.

(** How the library calls the callback: the buffer, the sample count and
    the event list ([None] for a null pointer), each event with its type
    and with whether its [user_data] is the pointer that
    [espeak_ng_Synthesize] was given, or null. *)
Record callback_arguments : Type := {
  cb_wav : Z;
  cb_numsamples : Z;
  cb_events : option (list (espeak_EVENT_TYPE * bool))
}.

(** What the libraries answer to the program, given the run so far. The
    code of the headers is answered by [header_answers], which sees the run
    up to where that code was entered and then the calls the code made.
    The library can call the callback once it is registered, during
    [espeak_ng_Synthesize] and [espeak_ng_Synchronize]. *)
Record program_libraries : Type := {
  header_answers : run -> libraries;
  InitializeOutput_answer : run -> espeak_ng_STATUS;
  GetSampleRate_answer : run -> Z;
  OpenAudioDevice_answer : run -> SDL_AudioSpec -> SDL_AudioDeviceID;
  Synthesize_callbacks : run -> list callback_arguments;
  Synthesize_answer : run -> espeak_ng_STATUS;
  Synchronize_callbacks : run -> list callback_arguments;
  Synchronize_answer : run -> espeak_ng_STATUS
}.

(** The object of the enclosing block. *)
Definition this_object {T W} : M (T * W) T := fun s => (Returned (fst s), s).
Definition set_object {T W} (t : T) : M (T * W) unit :=
  fun s => (Returned tt, (t, snd s)).

Section Main.
Variable libs : program_libraries.
Variable order : argument_order.
(** Constants of the headers of eSpeak NG and SDL2. *)
Variable ENOUTPUT_MODE_SYNCHRONOUS : Z.
Variable POS_CHARACTER : Z.
Variable espeakCHARS_AUTO : Z.
Variable SDL_INIT_AUDIO : Z.
Variable AUDIO_S16LSB : Z.

(** Code of the headers, run as part of the program. *)
Definition headers {A} (c : libraries -> M log A) : M run A :=
  fun d =>
    let w := header_calls d in
    let (r, w') := c (header_answers libs d) w in
    (r, d ++ new_calls w w').

(** A destructor of the headers, likewise. *)
Definition headers_destructor (f : log -> log) (d : run) : run :=
  d ++ new_calls (header_calls d) (f (header_calls d)).

Definition call_main {A} (c : main_call) (answer : run -> A) : M run A :=
  call (fun d => (answer d, d ++ [inr c])).

(** [std::fprintf(stderr, text)] *)
Definition fprintf_stderr (text : string) : M run unit :=
  call (fun d => (tt, d ++ [inl (fprintf stderr text)])).

(** The events as the callback sees them, while the local [audio_device]
    is in state [a]. *)
Definition callback_events (a : SDL2.audio_device)
    (events : list (espeak_EVENT_TYPE * bool)) : list espeak_EVENT :=
  map (fun e : espeak_EVENT_TYPE * bool =>
         {| type := fst e; user_data := if snd e then Some a else None |})
    events.

(** One call of [SynthCallback] by the library. An exception that leaves
    the callback would have to pass through the frames of the C library,
    for which the language defines no behaviour. *)
Definition run_callback (a : SDL2.audio_device) (args : callback_arguments)
    : M run Z :=
  fun d =>
    match headers (fun lib =>
                     SynthCallback lib (cb_wav args) (cb_numsamples args)
                       (option_map (callback_events a) (cb_events args))) d
    with
    | (Raised _, d') => (Undefined, d')
    | r => r
    end.

(** The library goes on to the next call of the callback as long as the
    callback returns 0. *)
Fixpoint run_callbacks (a : SDL2.audio_device)
    (calls : list callback_arguments) : M run unit :=
  match calls with
  | [] => ret tt
  | args :: rest =>
      continue <- run_callback a args;;
      if bool_decide (continue = 0) then run_callbacks a rest else ret tt
  end.

(** A call of the library during which it calls the callback. *)
Definition call_with_callbacks (c : main_call)
    (callbacks : run -> list callback_arguments)
    (answer : run -> espeak_ng_STATUS) (a : SDL2.audio_device) : M run Z :=
  fun d =>
    bind (run_callbacks a (callbacks d))
      (fun _ d' => (Returned (answer d'), d')) (d ++ [inr c]).

(** [audio_device = sdl2::audio_device{id};] a temporary owner is made from
    [id], moved into the local owner, and destroyed. *)
Definition assign_audio_device (id : SDL_AudioDeviceID)
    (a : SDL2.audio_device) : M run SDL2.audio_device :=
  fun d =>
    let temporary :=
      auto_handle_from SDL2.audio_device_deleter (nullable_from_handle id) in
    let w := header_calls d in
    let '(a', temporary', w1) :=
      auto_handle_move_assign SDL2.audio_device_deleter a temporary w in
    let w2 :=
      auto_handle_destructor SDL2.audio_device_deleter temporary' w1 in
    (Returned a', d ++ new_calls w w2).

Definition text_to_speak : string := "Hello world.".

(** A statement of [main], run inside the three blocks. *)
Definition in_main {T1 T2 T3 W A} (c : M W A) : M (T1 * (T2 * (T3 * W))) A :=
  outer (outer (outer c)).

Definition line (text : string) : string := String.append text newline.

(** The statements of [main] from the declaration of [audio_device] on, in
    the blocks of the two services and of the device. *)
Definition main_with_device (sample_rate : Z)
    : M (SDL2.audio_device * (SDL2.service * (EspeakNG.service * run))) Z :=
  let required_audio_spec :=
    {| freq := sample_rate; format := AUDIO_S16LSB;
       channels := 1; samples := 4096 |} in
  id <- in_main
          (call_main
             (SDL_OpenAudioDevice nullptr 0 required_audio_spec nullptr 0)
             (fun d => OpenAudioDevice_answer libs d required_audio_spec));;
  a <- this_object;;
  a' <- in_main (assign_audio_device id a);;
  set_object a';;
  a <- this_object;;
  in_main (headers (fun lib =>
             SDL2.throw_if lib
               (nullable_eq nullable_from_nullptr
                  (auto_handle_get SDL2.audio_device_deleter a))));;
  in_main (fprintf_stderr (line "Setting synthesis callback."));;
  in_main (call_main espeak_SetSynthCallback (fun _ => tt));;
  in_main (fprintf_stderr (line "Start synthesis."));;
  a <- this_object;;
  status <- in_main
              (call_with_callbacks
                 (espeak_ng_Synthesize text_to_speak
                    (Z.of_nat (String.length text_to_speak) + 1) 0
                    POS_CHARACTER
                    (Z.of_nat (String.length text_to_speak))
                    espeakCHARS_AUTO nullptr)
                 (Synthesize_callbacks libs) (Synthesize_answer libs) a);;
  a <- this_object;;
  in_main (call_main
             (SDL_PauseAudioDevice
                (auto_handle_to_handle SDL2.audio_device_deleter a) 0)
             (fun _ => tt));;
  in_main (headers (fun _ => EspeakNG.throw_if_not_ok status nullptr));;
  in_main (fprintf_stderr (line "Syncrhonising."));;
  a <- this_object;;
  status <- in_main
              (call_with_callbacks espeak_ng_Synchronize
                 (Synchronize_callbacks libs) (Synchronize_answer libs) a);;
  in_main (headers (fun _ => EspeakNG.throw_if_not_ok status nullptr));;
  in_main (fprintf_stderr (line "Exiting."));;
  in_main (call_main (SDL_Delay 1500) (fun _ => tt));;
  ret 0.

(** The statements of [main] after the declaration of [service], in its
    block. *)
Definition main_with_service : M (EspeakNG.service * run) Z :=
  outer (fprintf_stderr (line "Initialising output."));;
  status <- outer
              (call_main
                 (espeak_ng_InitializeOutput ENOUTPUT_MODE_SYNCHRONOUS 0
                    nullptr)
                 (InitializeOutput_answer libs));;
  outer (headers (fun _ => EspeakNG.throw_if_not_ok status nullptr));;
  outer (fprintf_stderr (line "Getting sample rate."));;
  sample_rate <- outer
                   (call_main espeak_ng_GetSampleRate
                      (GetSampleRate_answer libs));;
  outer (fprintf_stderr (line "Starting SDL2 audio service."));;
  scoped
    (outer (headers (fun lib =>
                       SDL2.service_constructor lib true SDL_INIT_AUDIO)))
    (fun this s =>
       (fst s, headers_destructor (SDL2.service_destructor this) (snd s)))
    (scoped
       (ret (auto_handle_default SDL2.audio_device_deleter))
       (fun this s =>
          (fst s,
           (fst (snd s),
            headers_destructor
              (auto_handle_destructor SDL2.audio_device_deleter this)
              (snd (snd s)))))
       (main_with_device sample_rate)).

(** [int main()]; [sdl2.hpp] is included with [SDL_MAIN_HANDLED] defined. *)
Definition main : M run Z :=
  fprintf_stderr (line "Starting eSpeak NG service.");;
  call_main (espeak_ng_InitializePath nullptr) (fun _ => tt);;
  scoped
    (headers (fun lib => EspeakNG.service_constructor lib order))
    (fun this => headers_destructor (EspeakNG.service_destructor this))
    main_with_service.
End Main.

(** Libraries in which every call succeeds: the sample rate is 22050, the
    device opened is number 2, and synthesis calls the callback with 2048
    samples, then with 1024, then without a buffer to say it has
    finished. *)
Definition libs_succeed : program_libraries := {|
  header_answers := fun _ => Scenario.lib_succeeds;
  InitializeOutput_answer := fun _ => ENS_OK;
  GetSampleRate_answer := fun _ => 22050;
  OpenAudioDevice_answer := fun _ _ => 2;
  Synthesize_callbacks := fun _ =>
    [ {| cb_wav := 8192; cb_numsamples := 2048;
         cb_events := Some [(espeakEVENT_WORD, true);
                            (espeakEVENT_LIST_TERMINATED, true)] |};
      {| cb_wav := 8192; cb_numsamples := 1024;
         cb_events := Some [(espeakEVENT_LIST_TERMINATED, true)] |};
      {| cb_wav := nullptr; cb_numsamples := 0;
         cb_events := Some [(espeakEVENT_MSG_TERMINATED, true);
                            (espeakEVENT_LIST_TERMINATED, true)] |} ];
  Synthesize_answer := fun _ => ENS_OK;
  Synchronize_callbacks := fun _ => [];
  Synchronize_answer := fun _ => ENS_OK
|}.

(** The same, but no audio device can be opened. *)
Definition libs_without_device : program_libraries := {|
  header_answers := fun _ => Scenario.lib_succeeds;
  InitializeOutput_answer := fun _ => ENS_OK;
  GetSampleRate_answer := fun _ => 22050;
  OpenAudioDevice_answer := fun _ _ => 0;
  Synthesize_callbacks := fun _ => [];
  Synthesize_answer := fun _ => ENS_OK;
  Synchronize_callbacks := fun _ => [];
  Synchronize_answer := fun _ => ENS_OK
|}.

End Program.

(** ** How runs of the program are described *)

Module RunShape.

Import Program.

(** States that hold the run: the run itself, and the state of a block
    around it. *)
Class HasRun (S : Type) : Type := run_of : S -> run.

#[global] Instance run_has_run : HasRun run := fun d => d.

#[global] Instance block_has_run {T S : Type} `{HasRun S} : HasRun (T * S) :=
  fun s => run_of (snd s).

(** The calls that give a resource back. *)
Definition teardown (c : c_call + main_call) : Prop :=
  c = inl SDL_Quit \/ c = inl espeak_ng_Terminate
  \/ exists dev, c = inl (SDL_CloseAudioDevice dev).

(** Whatever state the code starts in, the calls it makes are calls
    accepted by [ok] followed by a tail that [tails] accepts for the way
    the code ends. *)
Definition ends_with {S A : Type} `{HasRun S}
    (ok : c_call + main_call -> Prop)
    (tails : outcome A -> run -> Prop) (c : M S A) : Prop :=
  forall s, exists pre tail,
    run_of (snd (c s)) = run_of s ++ pre ++ tail
    /\ Forall ok pre /\ tails (fst (c s)) tail.

(** The code only makes calls accepted by [ok]. *)
Definition appends {S A : Type} `{HasRun S}
    (ok : c_call + main_call -> Prop) (c : M S A) : Prop :=
  forall s, exists new,
    run_of (snd (c s)) = run_of s ++ new /\ Forall ok new.

(** The tails of a block whose destructor makes the one call [x], given
    the tails of its body: nothing if the constructor did not return, else
    the tail of the body, followed by [x] if the block was left by return
    or by exception. *)
Definition block_tails {A : Type} (x : c_call + main_call)
    (body_tails : outcome A -> run -> Prop) (r : outcome A) (tail : run)
    : Prop :=
  (tail = [] /\ forall v, r <> Returned v)
  \/ exists body_tail,
       body_tails r body_tail
       /\ tail = if left_scope r then body_tail ++ [x] else body_tail.

Definition no_tail {A : Type} (r : outcome A) (tail : run) : Prop :=
  tail = [].

(** Code of the headers that only adds calls accepted by [P] to the log. *)
Definition log_appends {A : Type} (P : c_call -> Prop) (c : M log A) : Prop :=
  forall w, exists new, snd (c w) = w ++ new /\ Forall P new.

(** Whether the terminator of the events of a callback carries the pointer
    to the audio device; [None] if the events have no terminator. *)
Definition terminator_carries (events : list (Main.espeak_EVENT_TYPE * bool))
    : option bool :=
  option_map snd
    (List.find
       (fun e : Main.espeak_EVENT_TYPE * bool =>
          bool_decide (fst e = Main.espeakEVENT_LIST_TERMINATED))
       events).

(** The events of a callback are an array with a terminator, and twice its
    sample count fits an [int]. *)
Definition well_formed (args : callback_arguments) : Prop :=
  (exists events carries,
      cb_events args = Some events
      /\ terminator_carries events = Some carries)
  /\ - 2 ^ 30 <= cb_numsamples args < 2 ^ 30.

(** The buffer that one call of the callback queues on device [id]. *)
Definition queued_by (id : SDL_AudioDeviceID) (args : callback_arguments)
    : run :=
  match cb_events args with
  | Some events =>
      match terminator_carries events with
      | Some true =>
          if bool_decide (cb_wav args = nullptr)
             || bool_decide (cb_numsamples args = 0)
          then []
          else [inl (SDL_QueueAudio id (cb_wav args)
                       (Main.to_Uint32 (cb_numsamples args * 2)))]
      | _ => []
      end
  | None => []
  end.

Definition queued (id : SDL_AudioDeviceID) (calls : list callback_arguments)
    : run :=
  flat_map (queued_by id) calls.

(** Libraries that answer the same at any time: the initialisations, the
    queueing of audio and [espeak_ng_Synchronize] succeed,
    [espeak_ng_Initialize] leaves [context], the sample rate is [rate],
    opening the device gives [id], [SDL_GetError] gives [message],
    [espeak_ng_Synthesize] answers [synth_status], and the callback is
    called as in [synth_calls] and [sync_calls]. *)
Definition libraries_answer (libs : program_libraries)
    (context rate id synth_status : Z) (message : string)
    (synth_calls sync_calls : list callback_arguments) : Prop :=
  (forall d w, Initialize_answer (header_answers libs d) w = (ENS_OK, context))
  /\ (forall d, InitializeOutput_answer libs d = ENS_OK)
  /\ (forall d, GetSampleRate_answer libs d = rate)
  /\ (forall d w flags, Init_answer (header_answers libs d) w flags = 0)
  /\ (forall d spec, OpenAudioDevice_answer libs d spec = id)
  /\ (forall d w, GetError_answer (header_answers libs d) w = message)
  /\ (forall d w dev wav len,
         QueueAudio_answer (header_answers libs d) w dev wav len = 0)
  /\ (forall d, Synthesize_callbacks libs d = synth_calls)
  /\ (forall d, Synthesize_answer libs d = synth_status)
  /\ (forall d, Synchronize_callbacks libs d = sync_calls)
  /\ (forall d, Synchronize_answer libs d = ENS_OK).

(** The run of [main] up to the opening of the audio device. *)
Definition run_until_device
    (ENOUTPUT_MODE_SYNCHRONOUS SDL_INIT_AUDIO AUDIO_S16LSB context rate : Z)
    : run :=
  [ inl (fprintf stderr (line "Starting eSpeak NG service."));
    inr (espeak_ng_InitializePath nullptr);
    inl espeak_ng_Initialize;
    inl (espeak_ng_ClearErrorContext context);
    inl (fprintf stderr (line "Initialising output."));
    inr (espeak_ng_InitializeOutput ENOUTPUT_MODE_SYNCHRONOUS 0 nullptr);
    inl (fprintf stderr (line "Getting sample rate."));
    inr espeak_ng_GetSampleRate;
    inl (fprintf stderr (line "Starting SDL2 audio service."));
    inl SDL_SetMainReady;
    inl (SDL_Init SDL_INIT_AUDIO);
    inr (SDL_OpenAudioDevice nullptr 0
           {| freq := rate; format := AUDIO_S16LSB;
              channels := 1; samples := 4096 |} nullptr 0) ].

(** The run from there to the end of [espeak_ng_Synthesize] and the
    unpausing of the device. *)
Definition run_of_synthesis (POS_CHARACTER espeakCHARS_AUTO id : Z)
    (synth_calls : list callback_arguments) : run :=
  [ inl (fprintf stderr (line "Setting synthesis callback."));
    inr espeak_SetSynthCallback;
    inl (fprintf stderr (line "Start synthesis."));
    inr (espeak_ng_Synthesize "Hello world." 13 0 POS_CHARACTER 12
           espeakCHARS_AUTO nullptr) ]
  ++ queued id synth_calls
  ++ [ inr (SDL_PauseAudioDevice id 0) ].

(** The code ends by returning a value accepted by [P] or by raising one of
    the two errors of the headers; it neither aborts nor leaves the
    behaviour undefined. *)
Definition ends_in {S A : Type} (P : A -> Prop) (c : M S A) : Prop :=
  forall s,
    match fst (c s) with
    | Returned a => P a
    | Raised what =>
        what = "eSpeak-NG error"%string \/ what = "SDL2 error"%string
    | Aborted | Undefined => False
    end.

(** The library calls the callback with terminated event lists and with
    sample counts whose double fits an [int] only, and queueing audio does
    not fail. *)
Definition callbacks_succeed (libs : program_libraries) : Prop :=
  (forall d, Forall well_formed (Synthesize_callbacks libs d))
  /\ (forall d, Forall well_formed (Synchronize_callbacks libs d))
  /\ (forall d w dev wav len,
         QueueAudio_answer (header_answers libs d) w dev wav len = 0).

End RunShape.

(** * Properties *)

(** ** The nullable adapter *)

Section NullableFacts.
Context {handle_type : Type} `{EqDecision handle_type}.
Context {null_value : handle_type}.
Implicit Types n : nullable handle_type null_value.

Lemma nullable_to_bool_false n :
  nullable_to_bool n = false <-> value n = null_value.
Proof.
  unfold nullable_to_bool. rewrite negb_false_iff.
  apply bool_decide_eq_true.
Qed.

Lemma nullable_to_bool_true n :
  nullable_to_bool n = true <-> value n <> null_value.
Proof.
  unfold nullable_to_bool. rewrite negb_true_iff.
  apply bool_decide_eq_false.
Qed.

Lemma nullable_eq_true n1 n2 :
  nullable_eq n1 n2 = true <-> value n1 = value n2.
Proof. unfold nullable_eq, nullable_to_handle. apply bool_decide_eq_true. Qed.

Lemma nullable_ne_eq n1 n2 : nullable_ne n1 n2 = negb (nullable_eq n1 n2).
Proof. reflexivity. Qed.

(** C6: for every handle type and sentinel, a default-constructed nullable
    converts to [false], compares equal to a nullable made from [nullptr]
    (with [==], and not unequal with [!=]), and the conversion to [bool] of
    any nullable is [false] exactly when the stored value is the sentinel. *)
Theorem nullable_default_is_null :
  nullable_to_bool (nullable_default (null_value := null_value)) = false
  /\ nullable_eq (nullable_default (null_value := null_value))
       nullable_from_nullptr = true
  /\ nullable_ne (nullable_default (null_value := null_value))
       nullable_from_nullptr = false
  /\ forall n, nullable_to_bool n = false <-> value n = null_value.
Proof.
  split; [| split; [| split]].
  - apply nullable_to_bool_false. reflexivity.
  - apply nullable_eq_true. reflexivity.
  - rewrite nullable_ne_eq, negb_false_iff.
    apply nullable_eq_true. reflexivity.
  - apply nullable_to_bool_false.
Qed.

(** C7: a nullable constructed from a raw handle value [v], the sentinel
    included, converts back to exactly [v], and [v] is what it stores. *)
Theorem nullable_round_trip (v : handle_type) :
  nullable_to_handle (nullable_from_handle (null_value := null_value) v) = v
  /\ value (nullable_from_handle (null_value := null_value) v) = v.
Proof. split; reflexivity. Qed.

End NullableFacts.

(** ** The deleters *)

Section DeleterFacts.
Context {W : Type}.

Lemma nullable_deleter_call_null {H : Type} `{EqDecision H} `{ValueInit H}
    (destroy_function : H -> W -> W) (w : W) :
  nullable_deleter_call destroy_function nullable_from_nullptr w
  = destroy_function value_init w.
Proof.
  unfold nullable_deleter_call.
  rewrite (proj2 (nullable_eq_true _ _)) by reflexivity.
  reflexivity.
Qed.

Lemma nullable_deleter_call_nonnull {H : Type} `{EqDecision H} `{ValueInit H}
    (destroy_function : H -> W -> W) (p : nullable H value_init) (w : W) :
  nullable_to_bool p = true ->
  nullable_deleter_call destroy_function p w = w.
Proof.
  intros Hp. apply nullable_to_bool_true in Hp.
  unfold nullable_deleter_call.
  destruct (nullable_eq p nullable_default) eqn:E; [| reflexivity].
  apply nullable_eq_true in E. contradiction.
Qed.

Lemma unsafe_handle_deleter_call_null {H : Type} `{NullablePointer H}
    {R : Type} (destroy_function : H -> W -> R * W) (w : W) :
  unsafe_handle_deleter_call destroy_function np_null w
  = snd (destroy_function np_null w).
Proof. unfold unsafe_handle_deleter_call. rewrite np_eq_refl. reflexivity. Qed.

Lemma unsafe_handle_deleter_call_nonnull {H : Type} `{NullablePointer H}
    {R : Type} (destroy_function : H -> W -> R * W) (p : H) (w : W) :
  np_bool p = true ->
  unsafe_handle_deleter_call destroy_function p w = w.
Proof.
  rewrite np_bool_spec, negb_true_iff. intros E.
  unfold unsafe_handle_deleter_call. rewrite E. reflexivity.
Qed.

End DeleterFacts.

(** C1 (the code departs from it): called on the null handle, the call
    operator of [nullable_deleter] and of [unsafe_handle_deleter] does run
    the release function, once, on the null value; a recording release
    function that starts with no calls ends with the one call on [0]. *)
Theorem deleter_call_on_null_runs_release :
  (forall (W H : Type) `(EqDecision H) `(ValueInit H)
          (destroy_function : H -> W -> W) (w : W),
      nullable_deleter_call destroy_function nullable_from_nullptr w
      = destroy_function value_init w)
  /\ (forall (W H : Type) `(NullablePointer H) (R : Type)
             (destroy_function : H -> W -> R * W) (w : W),
      unsafe_handle_deleter_call destroy_function np_null w
      = snd (destroy_function np_null w))
  /\ nullable_deleter_call (handle_type_t := Z) recording_release nullable_from_nullptr []
     = [0]
  /\ deleter_call (handle_deleter (handle_type_t := Z) recording_release)
       np_null [] = [0].
Proof.
  split; [| split; [| split]].
  - intros. apply nullable_deleter_call_null.
  - intros. apply unsafe_handle_deleter_call_null.
  - reflexivity.
  - reflexivity.
Qed.

(** ** Owners *)

Section OwnerFacts.
Context {W : Type}.
Variable deleter : deleter_type W.
Implicit Types (a : auto_handle deleter) (p : pointer deleter) (w : W).

Lemma release_leaves_null a :
  auto_handle_release deleter a
  = (auto_handle_get deleter a, auto_handle_default deleter).
Proof. reflexivity. Qed.

Lemma default_is_null :
  auto_handle_bool deleter (auto_handle_default deleter) = false.
Proof.
  unfold auto_handle_bool, Std.operator_bool, np_ne. simpl.
  rewrite np_eq_refl. reflexivity.
Qed.

(** A move construction hands the stored pointer over and leaves the
    source null. *)
Lemma move_construct_transfers a :
  auto_handle_move_construct deleter a
  = (auto_handle_from deleter (auto_handle_get deleter a),
     auto_handle_default deleter).
Proof. reflexivity. Qed.

(** So does a move assignment; what the destination held goes to the
    deleter if it was not null. *)
Lemma move_assign_transfers dst src w :
  auto_handle_move_assign deleter dst src w
  = (auto_handle_from deleter (auto_handle_get deleter src),
     auto_handle_default deleter,
     auto_handle_destructor deleter dst w).
Proof. reflexivity. Qed.

Lemma const_call_keeps_owner (c : member_call W deleter) a w :
  is_const c = true -> apply_member (a, w) c = (a, w).
Proof. destruct c; simpl; intros E; congruence. Qed.

Lemma const_calls_keep_owner (calls : list (member_call W deleter)) a w :
  forallb is_const calls = true ->
  fold_left apply_member calls (a, w) = (a, w).
Proof.
  induction calls as [| c calls IH]; cbn [fold_left forallb]; intros E;
    [reflexivity |].
  apply andb_prop in E as [Ec Ecalls].
  rewrite const_call_keeps_owner by exact Ec. auto.
Qed.

(** What follows holds for a deleter that does nothing when called on a
    pointer that is not null. *)
Hypothesis deleter_skips_nonnull :
  forall p w, np_bool p = true -> deleter_call deleter p w = w.

Lemma destructor_releases_nothing a w :
  auto_handle_destructor deleter a w = w.
Proof.
  unfold auto_handle_destructor, Std.destructor.
  destruct (np_bool (Std.get a)) eqn:E; auto.
Qed.

Lemma reset_releases_nothing p a w :
  snd (auto_handle_reset deleter p a w) = w.
Proof.
  unfold auto_handle_reset, Std.reset. simpl.
  destruct (np_bool (Std.ptr a)) eqn:E; auto.
Qed.

Lemma member_call_releases_nothing (c : member_call W deleter) a w :
  snd (apply_member (a, w) c) = w.
Proof.
  destruct c; cbn [apply_member]; try reflexivity.
  - apply reset_releases_nothing.
  - apply destructor_releases_nothing.
Qed.

Lemma member_calls_release_nothing (calls : list (member_call W deleter)) a w :
  snd (fold_left apply_member calls (a, w)) = w.
Proof.
  revert a w. induction calls as [| c calls IH]; intros a w; [reflexivity |].
  cbn [fold_left]. destruct (apply_member (a, w) c) as [a' w'] eqn:E.
  rewrite IH. change w' with (snd (a', w')). rewrite <- E.
  apply member_call_releases_nothing.
Qed.

(** Whatever is done with an owner between construction and destruction,
    the state is as it was: the release function has not run. *)
Lemma owner_lifetime_releases_nothing p
    (calls : list (member_call W deleter)) w :
  owner_lifetime p calls w = w.
Proof.
  unfold owner_lifetime.
  destruct (fold_left apply_member calls (auto_handle_from deleter p, w))
    as [a w'] eqn:E.
  rewrite destructor_releases_nothing.
  change w' with (snd (a, w')). rewrite <- E.
  apply member_calls_release_nothing.
Qed.

End OwnerFacts.

Lemma nullable_deleter_skips_nonnull {W H : Type} `{EqDecision H}
    `{ValueInit H} (destroy_function : H -> W -> W)
    (p : pointer (nullable_deleter destroy_function)) (w : W) :
  np_bool p = true ->
  deleter_call (nullable_deleter destroy_function) p w = w.
Proof. apply nullable_deleter_call_nonnull. Qed.

Lemma unsafe_handle_deleter_skips_nonnull {W H : Type} `{NullablePointer H}
    {R : Type} (destroy_function : H -> W -> R * W)
    (p : pointer (unsafe_handle_deleter destroy_function)) (w : W) :
  np_bool p = true ->
  deleter_call (unsafe_handle_deleter destroy_function) p w = w.
Proof. apply unsafe_handle_deleter_call_nonnull. Qed.

(** No owner ever closes its audio device. *)
Lemma audio_device_never_closed (dev : SDL_AudioDeviceID)
    (calls : list (member_call log SDL2.audio_device_deleter)) (w : log) :
  owner_lifetime (deleter := SDL2.audio_device_deleter)
    (nullable_from_handle dev) calls w = w.
Proof.
  apply owner_lifetime_releases_nothing.
  intros p w'. apply nullable_deleter_skips_nonnull.
Qed.

(** C2 (the code departs from it): an owner made from the value 42, with a
    release function that records its argument, records no call when it is
    destroyed, and none when it is given another value to hold; the claim
    asks for the one call on 42. This holds for owners over
    [nullable_deleter] and over [handle_deleter] alike. *)
Theorem owner_of_42_records_no_release :
  let d := nullable_deleter (handle_type_t := Z) recording_release in
  let u := handle_deleter (handle_type_t := Z) recording_release in
  auto_handle_destructor d (auto_handle_from d (nullable_from_handle 42)) []
  = []
  /\ snd (auto_handle_reset d (nullable_from_handle 7)
            (auto_handle_from d (nullable_from_handle 42)) []) = []
  /\ auto_handle_destructor u (auto_handle_from u 42) [] = []
  /\ snd (auto_handle_reset u 7 (auto_handle_from u 42) []) = [].
Proof. repeat split; reflexivity. Qed.

(** C3 (the code departs from it in its last part): moving from an owner
    that holds 42, by construction or by assignment, leaves 42 in the
    destination and the source null; but when both owners are then
    destroyed, a recording release function has recorded no call, where the
    claim asks for one. *)
Theorem move_transfers_and_records_no_release :
  let d := nullable_deleter (handle_type_t := Z) recording_release in
  let a := auto_handle_from d (nullable_from_handle 42) in
  (let (b, a') := auto_handle_move_construct d a in
   auto_handle_to_handle d b = 42
   /\ auto_handle_bool d a' = false
   /\ auto_handle_get d a' = nullable_from_nullptr
   /\ auto_handle_destructor d a' (auto_handle_destructor d b []) = []
   /\ auto_handle_destructor d b (auto_handle_destructor d a' []) = [])
  /\ (let '(c, a', w) :=
        auto_handle_move_assign d (auto_handle_default d) a [] in
      auto_handle_to_handle d c = 42
      /\ auto_handle_bool d a' = false
      /\ auto_handle_get d a' = nullable_from_nullptr
      /\ auto_handle_destructor d a' (auto_handle_destructor d c w) = []
      /\ auto_handle_destructor d c (auto_handle_destructor d a' w) = []).
Proof. repeat split; reflexivity. Qed.

(** C8, as the claim states it, fails: [release()] neither replaces the
    owner, nor moves from it, nor destroys it, and after it an owner
    constructed from 42 converts to the null value, not to 42. *)
Lemma released_owner_converts_to_null :
  let d := nullable_deleter (handle_type_t := Z) recording_release in
  let s := fold_left apply_member [call_release]
             (auto_handle_from d (nullable_from_handle 42), []) in
  forallb neither_replaces_nor_moves [call_release (deleter := d)] = true
  /\ auto_handle_to_handle d (fst s) = 0
  /\ auto_handle_to_handle d (fst s) <> 42.
Proof. split; [reflexivity | split; [reflexivity | discriminate]]. Qed.

(** C8, amended: an owner constructed from a raw handle value [h] converts
    to exactly [h], at construction and after any number of calls of its
    [const] members, that is, for as long as it is not released, reset,
    moved from or assigned to; those calls leave the state alone. This
    holds over [nullable_deleter] and over [unsafe_handle_deleter]. *)
Theorem auto_handle_converts_to_its_handle
    (W H R : Type) `(EqDecision H) `(ValueInit H) `(NullablePointer H)
    (destroy_void : H -> W -> W) (destroy_ret : H -> W -> R * W)
    (h : H) (w : W)
    (calls_n : list (member_call W (nullable_deleter destroy_void)))
    (calls_u : list (member_call W (unsafe_handle_deleter destroy_ret))) :
  forallb is_const calls_n = true ->
  forallb is_const calls_u = true ->
  let d := nullable_deleter destroy_void in
  let u := unsafe_handle_deleter destroy_ret in
  let s_n := fold_left apply_member calls_n
               (auto_handle_from d (nullable_from_handle h), w) in
  let s_u := fold_left apply_member calls_u (auto_handle_from u h, w) in
  auto_handle_to_handle d (fst s_n) = h /\ snd s_n = w
  /\ auto_handle_to_handle u (fst s_u) = h /\ snd s_u = w.
Proof.
  intros En Eu d u s_n s_u. subst s_n s_u.
  rewrite !const_calls_keep_owner by assumption.
  repeat split.
Qed.

Lemma auto_handle_converts_to_its_handle_witness :
  let d := nullable_deleter (handle_type_t := Z) recording_release in
  let u := handle_deleter (handle_type_t := Z) recording_release in
  let s_n := fold_left apply_member [call_get; call_to_handle]
               (auto_handle_from d (nullable_from_handle 42), []) in
  let s_u := fold_left apply_member [call_operator_bool]
               (auto_handle_from u 42, []) in
  auto_handle_to_handle d (fst s_n) = 42 /\ snd s_n = []
  /\ auto_handle_to_handle u (fst s_u) = 42 /\ snd s_u = [].
Proof.
  apply (auto_handle_converts_to_its_handle (list Z) Z unit _ _ _
           recording_release (fun h w => (tt, recording_release h w))
           42 [] [call_get; call_to_handle] [call_operator_bool]);
    reflexivity.
Defined.

(** ** Failure checks and library lifetimes *)

Lemma calls_of_app (c : c_call) (w1 w2 : log) :
  calls_of c (w1 ++ w2) = (calls_of c w1 + calls_of c w2)%nat.
Proof. unfold calls_of. rewrite list.filter_app, List.length_app. reflexivity. Qed.

Lemma calls_of_record_same (c : c_call) (w : log) :
  calls_of c (record_call c w) = S (calls_of c w).
Proof.
  unfold record_call. rewrite calls_of_app. unfold calls_of at 2.
  rewrite filter_cons_True by reflexivity. simpl. lia.
Qed.

Lemma calls_of_record_other (c c' : c_call) (w : log) :
  c' <> c -> calls_of c (record_call c' w) = calls_of c w.
Proof.
  intros Hne. unfold record_call. rewrite calls_of_app. unfold calls_of at 2.
  rewrite filter_cons_False by exact Hne. simpl. lia.
Qed.

Lemma throw_if_not_ok_eval (status context : Z) (w : log) :
  EspeakNG.throw_if_not_ok status context w
  = if bool_decide (status = ENS_OK) then (Returned tt, w)
    else (Raised "eSpeak-NG error",
          w ++ [espeak_ng_PrintStatusCodeMessage status stderr context]).
Proof.
  unfold EspeakNG.throw_if_not_ok.
  destruct (bool_decide (status = ENS_OK)); reflexivity.
Qed.

Lemma throw_if_eval (lib : libraries) (is_throwing : bool) (w : log) :
  SDL2.throw_if lib is_throwing w
  = if is_throwing
    then (Raised "SDL2 error",
          w ++ [SDL_GetError;
                fprintf stderr (String.append (GetError_answer lib w) newline)])
    else (Returned tt, w).
Proof.
  destruct is_throwing; [| reflexivity].
  unfold SDL2.throw_if, call_answer, call_void, call, bind, record_call,
    throw_runtime_error.
  rewrite <- app_assoc. reflexivity.
Qed.

(** C4: [espeak_ng::throw_if_not_ok] raises exactly when the status is not
    [ENS_OK], and [sdl2::throw_if] exactly when its condition is true. When
    one raises, it has first written its diagnostic to [stderr] (the
    message of the status, respectively the line with the text of
    [SDL_GetError]) and the error carries the fixed message; otherwise it
    returns and the state is untouched. *)
Theorem failure_checks_raise_iff_failed
    (lib : libraries) (status context : Z) (is_throwing : bool) (w : log) :
  EspeakNG.throw_if_not_ok status context w
  = (if bool_decide (status = ENS_OK) then (Returned tt, w)
     else (Raised "eSpeak-NG error",
           w ++ [espeak_ng_PrintStatusCodeMessage status stderr context]))
  /\ ((exists what,
         fst (EspeakNG.throw_if_not_ok status context w) = Raised what)
      <-> status <> ENS_OK)
  /\ SDL2.throw_if lib is_throwing w
     = (if is_throwing
        then (Raised "SDL2 error",
              w ++ [SDL_GetError;
                    fprintf stderr
                      (String.append (GetError_answer lib w) newline)])
        else (Returned tt, w))
  /\ ((exists what, fst (SDL2.throw_if lib is_throwing w) = Raised what)
      <-> is_throwing = true).
Proof.
  split; [apply throw_if_not_ok_eval |].
  split.
  { rewrite throw_if_not_ok_eval. case_bool_decide as E; simpl.
    - split; [intros [what Hw]; discriminate | contradiction].
    - split; [intros _; exact E | intros _; eexists; reflexivity]. }
  split; [apply throw_if_eval |].
  rewrite throw_if_eval. destruct is_throwing; simpl.
  - split; [reflexivity | intros _; eexists; reflexivity].
  - split; [intros [what Hw]; discriminate | discriminate].
Qed.

(** What [espeak_ng::service()] does: the library is initialised, and the
    local error context is cleared on the way out, by return and by
    exception alike. With the arguments evaluated right to left, the
    diagnostic is printed with the context as it was before the call, that
    is, null. *)
Lemma espeak_service_constructor_eval
    (lib : libraries) (order : argument_order) (w : log) :
  EspeakNG.service_constructor lib order w
  = let (status, written) := Initialize_answer lib w in
    if bool_decide (status = ENS_OK)
    then (Returned EspeakNG.Build_service,
          w ++ [espeak_ng_Initialize; espeak_ng_ClearErrorContext written])
    else (Raised "eSpeak-NG error",
          w ++ [espeak_ng_Initialize;
                espeak_ng_PrintStatusCodeMessage status stderr
                  (match order with
                   | LeftToRight => written
                   | RightToLeft => nullptr
                   end);
                espeak_ng_ClearErrorContext written]).
Proof.
  unfold EspeakNG.service_constructor, EspeakNG.Initialize_argument,
    EspeakNG.Initialize_into_context, EspeakNG.error_context_to_pointer,
    EspeakNG.error_context_deref, EspeakNG.error_context_destructor,
    scoped, bind, ret, outer, assert, record_call.
  destruct order; simpl;
    destruct (Initialize_answer lib w) as [status written]; simpl;
    rewrite throw_if_not_ok_eval;
    destruct (bool_decide (status = ENS_OK)); simpl;
    rewrite <- ?app_assoc; reflexivity.
Qed.

Lemma sdl_service_constructor_eval
    (lib : libraries) (main_handled : bool) (flags : Z) (w : log) :
  SDL2.service_constructor lib main_handled flags w
  = let w0 := if main_handled then w ++ [SDL_SetMainReady] else w in
    let w1 := w0 ++ [SDL_Init flags] in
    if bool_decide (0 = Init_answer lib w0 flags)
    then (Returned SDL2.Build_service, w1)
    else (Raised "SDL2 error",
          w1 ++ [SDL_GetError;
                 fprintf stderr
                   (String.append (GetError_answer lib w1) newline)]).
Proof.
  unfold SDL2.service_constructor, call_answer, call_void, call, bind, ret,
    record_call.
  destruct main_handled; simpl; rewrite throw_if_eval;
    destruct (bool_decide (0 = Init_answer lib _ flags)); reflexivity.
Qed.

(** Leaving a block runs the destructor of its object once, after the
    body. *)
Lemma scoped_after_constructor {T W A} (ctor : M W T) (dtor : T -> W -> W)
    (body : M (T * W) A) (w w1 : W) (obj : T) :
  ctor w = (Returned obj, w1) ->
  fst (scoped ctor dtor body w) = fst (body (obj, w1))
  /\ (left_scope (fst (body (obj, w1))) = true ->
      snd (scoped ctor dtor body w)
      = dtor (fst (snd (body (obj, w1)))) (snd (snd (body (obj, w1))))).
Proof.
  intros E. unfold scoped. rewrite E.
  destruct (body (obj, w1)) as [[a | what | |] [obj' w2]]; simpl;
    split; try reflexivity; discriminate.
Qed.

Lemma scoped_constructor_raises {T W A} (ctor : M W T) (dtor : T -> W -> W)
    (body : M (T * W) A) (w w1 : W) (what : string) :
  ctor w = (Raised what, w1) ->
  scoped ctor dtor body w = (Raised what, w1).
Proof. intros E. unfold scoped. rewrite E. reflexivity. Qed.

Lemma calls_of_nil (c : c_call) : calls_of c [] = 0%nat.
Proof. reflexivity. Qed.

Lemma calls_of_cons_other (c c' : c_call) (w : log) :
  c' <> c -> calls_of c (c' :: w) = calls_of c w.
Proof. intros Hne. unfold calls_of. rewrite filter_cons_False; auto. Qed.

Lemma calls_of_cons_same (c : c_call) (w : log) :
  calls_of c (c :: w) = S (calls_of c w).
Proof. unfold calls_of. rewrite filter_cons_True; auto. Qed.

(** Counts the occurrences of a call in a log that ends in known calls. *)
Ltac count_calls :=
  unfold record_call;
  repeat first
    [ rewrite calls_of_app
    | rewrite calls_of_cons_same
    | rewrite calls_of_cons_other by discriminate
    | rewrite calls_of_nil ];
  try lia.

Section ServiceFacts.
Variable lib : libraries.
Context {A : Type}.

Lemma espeak_with_service_failed order (body : M (EspeakNG.service * log) A) w :
  fst (Initialize_answer lib w) <> ENS_OK ->
  fst (EspeakNG.with_service lib order body w) = Raised "eSpeak-NG error"
  /\ calls_of espeak_ng_Terminate (snd (EspeakNG.with_service lib order body w))
     = calls_of espeak_ng_Terminate w.
Proof.
  intros Hfail. unfold EspeakNG.with_service.
  pose proof (espeak_service_constructor_eval lib order w) as E.
  destruct (Initialize_answer lib w) as [status written]; simpl in *.
  rewrite bool_decide_eq_false_2 in E by exact Hfail.
  rewrite (scoped_constructor_raises _ _ _ _ _ _ E). simpl.
  split; [reflexivity | count_calls].
Qed.

Lemma espeak_with_service_ok order (body : M (EspeakNG.service * log) A) w :
  makes_no_call espeak_ng_Terminate body ->
  fst (Initialize_answer lib w) = ENS_OK ->
  let r := EspeakNG.with_service lib order body w in
  let w1 := w ++ [espeak_ng_Initialize;
                  espeak_ng_ClearErrorContext (snd (Initialize_answer lib w))] in
  fst r = fst (body (EspeakNG.Build_service, w1))
  /\ (left_scope (fst r) = true ->
      snd r = snd (snd (body (EspeakNG.Build_service, w1)))
                ++ [espeak_ng_Terminate]
      /\ calls_of espeak_ng_Terminate (snd r)
         = S (calls_of espeak_ng_Terminate w)).
Proof.
  intros Hbody Hok r w1. subst r w1. unfold EspeakNG.with_service.
  pose proof (espeak_service_constructor_eval lib order w) as E.
  destruct (Initialize_answer lib w) as [status written]; simpl in *.
  rewrite bool_decide_eq_true_2 in E by exact Hok.
  destruct (scoped_after_constructor _ EspeakNG.service_destructor body _ _ _ E)
    as [Hfst Hsnd].
  split; [exact Hfst |].
  rewrite Hfst. intros Hleft. rewrite (Hsnd Hleft).
  split; [reflexivity |].
  unfold EspeakNG.service_destructor. rewrite calls_of_record_same.
  rewrite Hbody. simpl. f_equal. count_calls.
Qed.

Lemma sdl_with_service_failed (main_handled : bool) (flags : Z)
    (body : M (SDL2.service * log) A) (w : log) :
  Init_answer lib (if main_handled then w ++ [SDL_SetMainReady] else w) flags
  <> 0 ->
  fst (SDL2.with_service lib main_handled flags body w) = Raised "SDL2 error"
  /\ calls_of SDL_Quit (snd (SDL2.with_service lib main_handled flags body w))
     = calls_of SDL_Quit w.
Proof.
  intros Hfail. unfold SDL2.with_service.
  pose proof (sdl_service_constructor_eval lib main_handled flags w) as E.
  cbv zeta in E.
  case_bool_decide as Hd; [symmetry in Hd; contradiction |].
  rewrite (scoped_constructor_raises _ _ _ _ _ _ E). simpl.
  split; [reflexivity |].
  destruct main_handled; count_calls.
Qed.

Lemma sdl_with_service_ok (main_handled : bool) (flags : Z)
    (body : M (SDL2.service * log) A) (w : log) :
  makes_no_call SDL_Quit body ->
  Init_answer lib (if main_handled then w ++ [SDL_SetMainReady] else w) flags
  = 0 ->
  let r := SDL2.with_service lib main_handled flags body w in
  let w1 := (if main_handled then w ++ [SDL_SetMainReady] else w)
              ++ [SDL_Init flags] in
  fst r = fst (body (SDL2.Build_service, w1))
  /\ (left_scope (fst r) = true ->
      snd r = snd (snd (body (SDL2.Build_service, w1))) ++ [SDL_Quit]
      /\ calls_of SDL_Quit (snd r) = S (calls_of SDL_Quit w)).
Proof.
  intros Hbody Hok r w1. subst r w1. unfold SDL2.with_service.
  pose proof (sdl_service_constructor_eval lib main_handled flags w) as E.
  cbv zeta in E.
  case_bool_decide as Hd; [| symmetry in Hok; contradiction].
  destruct (scoped_after_constructor _ SDL2.service_destructor body _ _ _ E)
    as [Hfst Hsnd].
  split; [exact Hfst |].
  rewrite Hfst. intros Hleft. rewrite (Hsnd Hleft).
  split; [reflexivity |].
  unfold SDL2.service_destructor. rewrite calls_of_record_same.
  rewrite Hbody. simpl. f_equal. destruct main_handled; count_calls.
Qed.

End ServiceFacts.

(** C5: for [espeak_ng::service] and for [sdl2::service], in a block that
    holds the service and whose other code never calls the terminator: if
    the initializer fails, the constructor raises and the terminator
    ([espeak_ng_Terminate], [SDL_Quit]) is not called; if it succeeds, the
    block ends as its body ends, and when the body returns or raises an
    error, the terminator is called exactly once, as the last call. *)
Theorem terminator_runs_once_iff_initialised
    (lib : libraries) (order : argument_order) (main_handled : bool)
    (flags : Z) (A : Type)
    (body_e : M (EspeakNG.service * log) A)
    (body_s : M (SDL2.service * log) A) (w : log) :
  makes_no_call espeak_ng_Terminate body_e ->
  makes_no_call SDL_Quit body_s ->
  let r_e := EspeakNG.with_service lib order body_e w in
  let w_e := w ++ [espeak_ng_Initialize;
                   espeak_ng_ClearErrorContext (snd (Initialize_answer lib w))] in
  let w0 := if main_handled then w ++ [SDL_SetMainReady] else w in
  let r_s := SDL2.with_service lib main_handled flags body_s w in
  let w_s := w0 ++ [SDL_Init flags] in
  (fst (Initialize_answer lib w) <> ENS_OK ->
   fst r_e = Raised "eSpeak-NG error"
   /\ calls_of espeak_ng_Terminate (snd r_e) = calls_of espeak_ng_Terminate w)
  /\ (fst (Initialize_answer lib w) = ENS_OK ->
      fst r_e = fst (body_e (EspeakNG.Build_service, w_e))
      /\ (left_scope (fst r_e) = true ->
          snd r_e = snd (snd (body_e (EspeakNG.Build_service, w_e)))
                      ++ [espeak_ng_Terminate]
          /\ calls_of espeak_ng_Terminate (snd r_e)
             = S (calls_of espeak_ng_Terminate w)))
  /\ (Init_answer lib w0 flags <> 0 ->
      fst r_s = Raised "SDL2 error"
      /\ calls_of SDL_Quit (snd r_s) = calls_of SDL_Quit w)
  /\ (Init_answer lib w0 flags = 0 ->
      fst r_s = fst (body_s (SDL2.Build_service, w_s))
      /\ (left_scope (fst r_s) = true ->
          snd r_s = snd (snd (body_s (SDL2.Build_service, w_s))) ++ [SDL_Quit]
          /\ calls_of SDL_Quit (snd r_s) = S (calls_of SDL_Quit w))).
Proof.
  intros He Hs r_e w_e w0 r_s w_s.
  split; [apply espeak_with_service_failed |].
  split; [apply espeak_with_service_ok; exact He |].
  split; [apply sdl_with_service_failed |].
  apply sdl_with_service_ok; exact Hs.
Qed.

Lemma terminator_runs_once_iff_initialised_witness :
  (* initialisation succeeds, then unrelated code raises *)
  EspeakNG.with_service Scenario.lib_succeeds LeftToRight Scenario.later_error []
  = (Raised "later error",
     [espeak_ng_Initialize; espeak_ng_ClearErrorContext 0; espeak_ng_Terminate])
  /\ calls_of SDL_Quit
       (snd (SDL2.with_service Scenario.lib_succeeds true 16
               Scenario.later_error [])) = 1%nat
  (* initialisation fails *)
  /\ fst (EspeakNG.with_service Scenario.lib_fails LeftToRight
            Scenario.later_error []) = Raised "eSpeak-NG error"
  /\ calls_of SDL_Quit
       (snd (SDL2.with_service Scenario.lib_fails true 16
               Scenario.later_error [])) = 0%nat.
Proof.
  assert (He : makes_no_call (T := EspeakNG.service) espeak_ng_Terminate
                 Scenario.later_error) by (intros [o w]; reflexivity).
  assert (Hs : makes_no_call (T := SDL2.service) SDL_Quit
                 Scenario.later_error) by (intros [o w]; reflexivity).
  destruct (terminator_runs_once_iff_initialised Scenario.lib_succeeds
              LeftToRight true 16 unit _ _ [] He Hs) as (_ & E2 & _ & S2).
  destruct (terminator_runs_once_iff_initialised Scenario.lib_fails
              LeftToRight true 16 unit _ _ [] He Hs) as (E1 & _ & S1 & _).
  split; [reflexivity |].
  split; [apply S2; reflexivity |].
  split; [apply E1; discriminate |].
  apply S1. discriminate.
Defined.

(** C9: the destructor of [espeak_ng::error_context] makes the one call
    [espeak_ng_ClearErrorContext] on its context, whatever the context
    holds; so a block that holds an error context ends with that call on
    the context as the body left it, populated or not, both when the body
    returns and when it raises; and the constructor of [espeak_ng::service]
    clears its local context after a successful and after a failed
    initialisation. *)
Theorem error_context_is_always_cleared
    (lib : libraries) (order : argument_order) (A : Type)
    (body : M (EspeakNG.error_context * log) A)
    (this : EspeakNG.error_context) (w : log) :
  left_scope (fst (body (EspeakNG.error_context_default, w))) = true ->
  let b := body (EspeakNG.error_context_default, w) in
  let r := EspeakNG.with_error_context body w in
  EspeakNG.error_context_destructor this w
  = w ++ [espeak_ng_ClearErrorContext (EspeakNG.data this)]
  /\ fst r = fst b
  /\ snd r = snd (snd b)
               ++ [espeak_ng_ClearErrorContext (EspeakNG.data (fst (snd b)))]
  /\ list.last (snd (EspeakNG.service_constructor lib order w))
     = Some (espeak_ng_ClearErrorContext (snd (Initialize_answer lib w))).
Proof.
  intros Hleft b r. subst b r.
  split; [reflexivity |].
  assert (E : ret (W := log) EspeakNG.error_context_default w
              = (Returned EspeakNG.error_context_default, w)) by reflexivity.
  destruct (scoped_after_constructor _ EspeakNG.error_context_destructor
              body _ _ _ E) as [Hfst Hsnd].
  split; [exact Hfst |].
  split; [exact (Hsnd Hleft) |].
  rewrite espeak_service_constructor_eval.
  destruct (Initialize_answer lib w) as [status written]; simpl.
  destruct (bool_decide (status = ENS_OK)); simpl.
  - change [espeak_ng_Initialize; espeak_ng_ClearErrorContext written]
      with ([espeak_ng_Initialize] ++ [espeak_ng_ClearErrorContext written]).
    rewrite app_assoc. apply last_snoc.
  - match goal with
    | |- list.last (w ++ [?a; ?b; ?c]) = _ =>
        change [a; b; c] with ([a; b] ++ [c])
    end.
    rewrite app_assoc. apply last_snoc.
Qed.

Lemma error_context_is_always_cleared_witness :
  EspeakNG.with_error_context Scenario.populate_and_raise []
  = (Raised "later error",
     [espeak_ng_Initialize; espeak_ng_ClearErrorContext 4096])
  /\ EspeakNG.with_error_context (ret tt) []
     = (Returned tt, [espeak_ng_ClearErrorContext 0]).
Proof.
  destruct (error_context_is_always_cleared Scenario.lib_fails LeftToRight
              unit Scenario.populate_and_raise
              EspeakNG.error_context_default [] eq_refl)
    as (_ & Hfst & Hsnd & _).
  destruct (error_context_is_always_cleared Scenario.lib_fails LeftToRight
              unit (ret tt) EspeakNG.error_context_default [] eq_refl)
    as (_ & Hfst' & Hsnd' & _).
  split; apply injective_projections; assumption.
Defined.

(** ** The synthesis callback *)

Section CallbackFacts.
Variable lib : libraries.
Import Main.


Lemma switch_event_type_eval (t : espeak_EVENT_TYPE) (w : log) :
  switch_event_type t w = (Returned tt, w).
Proof. destruct t; reflexivity. Qed.

(** The loop stops at the terminator and makes no call. *)
Lemma for_events_eval (events : list espeak_EVENT) (w : log) :
  for_events events w
  = match terminator events with
    | Some e => (Returned e, w)
    | None => (Undefined, w)
    end.
Proof.
  induction events as [| e rest IH]; [reflexivity |].
  unfold terminator in *. simpl.
  destruct (bool_decide (type e = espeakEVENT_LIST_TERMINATED)); simpl;
    [reflexivity |].
  unfold bind. rewrite switch_event_type_eval. exact IH.
Qed.

Lemma SynthCallback_eval (wav numsamples : Z) (events : list espeak_EVENT)
    (e : espeak_EVENT) (w : log) :
  terminator events = Some e ->
  SynthCallback lib wav numsamples (Some events) w
  = if negb (bool_decide (wav = nullptr))
       && negb (bool_decide (numsamples = 0))
    then match user_data e with
         | Some audio_device =>
             let dev := auto_handle_to_handle _ audio_device in
             let len := to_Uint32 (numsamples * 2) in
             let w1 := w ++ [SDL_QueueAudio dev wav len] in
             if fits_int (numsamples * 2)
             then
               if bool_decide (0 = QueueAudio_answer lib w dev wav len)
               then (Returned 0, w1)
               else (Raised "SDL2 error",
                     w1 ++ [SDL_GetError;
                            fprintf stderr
                              (String.append (GetError_answer lib w1)
                                 newline)])
             else (Undefined, w)
         | None => (Returned 0, w)
         end
    else (Returned 0, w).
Proof.
  intros He. unfold SynthCallback, bind, assert. simpl.
  rewrite for_events_eval, He.
  destruct (negb (bool_decide (wav = nullptr))
            && negb (bool_decide (numsamples = 0))); [| reflexivity].
  destruct (user_data e) as [audio_device |]; [| reflexivity].
  destruct (fits_int (numsamples * 2)); [| reflexivity].
  unfold call_answer, call, record_call. simpl.
  rewrite throw_if_eval.
  destruct (bool_decide (0 = QueueAudio_answer lib w _ wav _)); reflexivity.
Qed.

Lemma fits_int_twice (numsamples : Z) :
  - 2 ^ 30 <= numsamples < 2 ^ 30 -> fits_int (numsamples * 2) = true.
Proof.
  intros Hn. unfold fits_int.
  apply andb_true_intro. split; [apply Z.leb_le | apply Z.ltb_lt]; lia.
Qed.

End CallbackFacts.




(** * Further properties of the code *)

(** ** boni.hpp *)

(** X1: [operator==] of [nullable] holds exactly when the two values are the
    same, that is, store the same handle; it is symmetric; [operator!=] is
    its negation; and a nullable equals the null marker exactly when its
    conversion to [bool] is false. *)
Theorem nullable_eq_decides_equality
    (H : Type) `(EqDecision H) (null_value : H)
    (a b : nullable H null_value) :
  (nullable_eq a b = true <-> a = b)
  /\ (nullable_eq a b = true <-> nullable_to_handle a = nullable_to_handle b)
  /\ nullable_eq a b = nullable_eq b a
  /\ nullable_ne a b = negb (nullable_eq a b)
  /\ nullable_eq a nullable_from_nullptr = negb (nullable_to_bool a)
  /\ nullable_eq nullable_from_nullptr a = negb (nullable_to_bool a).
Proof.
  assert (Hsym : nullable_eq a b = nullable_eq b a).
  { unfold nullable_eq. apply bool_decide_ext. split; intros E; symmetry; exact E. }
  split; [| split; [| split; [| split; [| split]]]].
  - rewrite nullable_eq_true. destruct a as [x], b as [y]; simpl.
    split; intros E; congruence.
  - apply nullable_eq_true.
  - exact Hsym.
  - reflexivity.
  - unfold nullable_to_bool. rewrite negb_involutive. reflexivity.
  - unfold nullable_to_bool, nullable_eq. rewrite negb_involutive.
    apply bool_decide_ext. simpl. split; intros E; symmetry; exact E.
Qed.

(** X2: the call operators of [nullable_deleter] and of
    [unsafe_handle_deleter] run the release function for the null handle
    only: given any handle that is not null they do nothing, whatever the
    release function is. *)
Theorem deleter_call_releases_only_null
    (W H R : Type) `(EqDecision H) `(ValueInit H) `(NullablePointer H)
    (destroy_void : H -> W -> W) (destroy_ret : H -> W -> R * W)
    (p : nullable H value_init) (h : H) (w : W) :
  nullable_deleter_call destroy_void p w
  = (if nullable_to_bool p then w else destroy_void value_init w)
  /\ unsafe_handle_deleter_call destroy_ret h w
     = (if np_bool h then w else snd (destroy_ret h w)).
Proof.
  split.
  - destruct (nullable_to_bool p) eqn:E.
    + apply nullable_deleter_call_nonnull. exact E.
    + apply nullable_to_bool_false in E.
      destruct p as [x]; simpl in E; subst x.
      apply nullable_deleter_call_null.
  - destruct (np_bool h) eqn:E.
    + apply unsafe_handle_deleter_call_nonnull. exact E.
    + rewrite np_bool_spec, negb_false_iff in E.
      unfold unsafe_handle_deleter_call. rewrite E. reflexivity.
Qed.

(** X3: an [auto_handle] over [nullable_deleter] or over
    [unsafe_handle_deleter] never runs the release function: construct it
    from any handle, call any members on it in any order ([get],
    conversions, [release], [reset], moves out of it and move assignments
    to it), destroy it, and the state is what it was. *)
Theorem auto_handle_never_runs_release
    (W H R : Type) `(EqDecision H) `(ValueInit H) `(NullablePointer H)
    (destroy_void : H -> W -> W) (destroy_ret : H -> W -> R * W)
    (p : nullable H value_init) (h : H) (w : W)
    (calls_n : list (member_call W (nullable_deleter destroy_void)))
    (calls_u : list (member_call W (unsafe_handle_deleter destroy_ret))) :
  owner_lifetime (deleter := nullable_deleter destroy_void) p calls_n w = w
  /\ owner_lifetime (deleter := unsafe_handle_deleter destroy_ret) h calls_u w
     = w.
Proof.
  split; apply owner_lifetime_releases_nothing.
  - intros q w'. apply nullable_deleter_skips_nonnull.
  - intros q w'. apply unsafe_handle_deleter_skips_nonnull.
Qed.

(** X4: as a consequence no [boni::file] ever calls [fclose] on its stream
    and no [sdl2::audio_device] ever calls [SDL_CloseAudioDevice] on its
    device, whatever is done with the owner before it is destroyed. *)
Theorem file_and_audio_device_are_never_closed
    (W : Type) (fclose : Z -> W -> Z * W) (stream : Z) (w : W)
    (file_calls : list (member_call W (file_deleter fclose)))
    (dev : SDL_AudioDeviceID) (l : log)
    (device_calls : list (member_call log SDL2.audio_device_deleter)) :
  owner_lifetime (deleter := file_deleter fclose) stream file_calls w = w
  /\ owner_lifetime (deleter := SDL2.audio_device_deleter)
       (nullable_from_handle dev) device_calls l = l
  /\ forall d, calls_of (SDL_CloseAudioDevice d)
                 (owner_lifetime (deleter := SDL2.audio_device_deleter)
                    (nullable_from_handle dev) device_calls [])
               = 0%nat.
Proof.
  assert (Hdev : forall l',
             owner_lifetime (deleter := SDL2.audio_device_deleter)
               (nullable_from_handle dev) device_calls l' = l').
  { intros l'. apply owner_lifetime_releases_nothing.
    intros q w'. apply nullable_deleter_skips_nonnull. }
  split; [| split].
  - apply owner_lifetime_releases_nothing.
    intros q w'. apply unsafe_handle_deleter_skips_nonnull.
  - apply Hdev.
  - intros d. rewrite Hdev. reflexivity.
Qed.

(** ** espeak-ng.hpp and sdl2.hpp *)

Lemma scoped_left {T W A} (ctor : M W T) (dtor : T -> W -> W)
    (body : M (T * W) A) (w w1 : W) (obj : T) :
  ctor w = (Returned obj, w1) ->
  left_scope (fst (body (obj, w1))) = true ->
  scoped ctor dtor body w
  = (fst (body (obj, w1)),
     dtor (fst (snd (body (obj, w1)))) (snd (snd (body (obj, w1))))).
Proof.
  intros E Hleft.
  destruct (scoped_after_constructor ctor dtor body w w1 obj E) as [Hf Hs].
  apply injective_projections; simpl; auto.
Qed.

Lemma scoped_aborted {T W A} (ctor : M W T) (dtor : T -> W -> W)
    (body : M (T * W) A) (w w1 : W) (obj : T) :
  ctor w = (Returned obj, w1) ->
  fst (body (obj, w1)) = Aborted ->
  scoped ctor dtor body w = (Aborted, snd (snd (body (obj, w1)))).
Proof.
  intros E Hb. unfold scoped. rewrite E.
  destruct (body (obj, w1)) as [[a | what | |] [obj' w2]];
    simpl in *; congruence.
Qed.

(** X5: [espeak_ng::service()] never aborts; it returns exactly when
    [espeak_ng_Initialize] answers [ENS_OK] and raises otherwise. Its calls
    are: [espeak_ng_Initialize]; on failure the diagnostic, printed before
    the context is cleared; and last [espeak_ng_ClearErrorContext] on the
    context as the initialisation left it. When the arguments of
    [throw_if_not_ok] are evaluated right to left, the diagnostic is
    printed with a null context. *)
Theorem espeak_service_constructor_calls
    (lib : libraries) (order : argument_order) (w : log) :
  let status := fst (Initialize_answer lib w) in
  let written := snd (Initialize_answer lib w) in
  let r := EspeakNG.service_constructor lib order w in
  fst r = (if bool_decide (status = ENS_OK)
           then Returned EspeakNG.Build_service
           else Raised "eSpeak-NG error")
  /\ snd r
     = w ++ [espeak_ng_Initialize]
         ++ (if bool_decide (status = ENS_OK) then []
             else [espeak_ng_PrintStatusCodeMessage status stderr
                     (match order with
                      | LeftToRight => written
                      | RightToLeft => nullptr
                      end)])
         ++ [espeak_ng_ClearErrorContext written].
Proof.
  intros status written r. subst status written r.
  rewrite espeak_service_constructor_eval.
  destruct (Initialize_answer lib w) as [status written]; simpl.
  destruct (bool_decide (status = ENS_OK)); split; reflexivity.
Qed.

(** X6: an error context serves one call. In a block that holds an error
    context, code that ends by passing the context to
    [espeak_ng_Initialize] makes that call only if the context is still
    null; if the code before has left something in it, the conversion to
    a pointer aborts: the library is not called again and the context is
    not cleared. *)
Theorem error_context_serves_one_call
    (lib : libraries) (A : Type)
    (before : M (EspeakNG.error_context * log) A) (a : A) (w : log) :
  fst (before (EspeakNG.error_context_default, w)) = Returned a ->
  let context := fst (snd (before (EspeakNG.error_context_default, w))) in
  let w1 := snd (snd (before (EspeakNG.error_context_default, w))) in
  EspeakNG.with_error_context
    (bind before (fun _ => EspeakNG.Initialize_argument lib)) w
  = if bool_decide (EspeakNG.data context = nullptr)
    then (Returned (fst (Initialize_answer lib w1)),
          w1 ++ [espeak_ng_Initialize;
                 espeak_ng_ClearErrorContext (snd (Initialize_answer lib w1))])
    else (Aborted, w1).
Proof.
  intros Hb context w1. subst context w1.
  unfold EspeakNG.with_error_context, scoped, ret, bind.
  destruct (before (EspeakNG.error_context_default, w))
    as [r [context w1]] eqn:Eb.
  simpl in Hb. subst r. simpl.
  unfold EspeakNG.Initialize_argument, EspeakNG.error_context_to_pointer,
    EspeakNG.Initialize_into_context, bind, assert. simpl.
  destruct (bool_decide (EspeakNG.data context = nullptr)); [| reflexivity].
  unfold EspeakNG.error_context_destructor, record_call. simpl.
  destruct (Initialize_answer lib w1) as [status written]; simpl.
  rewrite <- app_assoc. reflexivity.
Qed.

Lemma error_context_serves_one_call_witness :
  EspeakNG.with_error_context
    (bind (EspeakNG.Initialize_argument Scenario.lib_fails)
       (fun _ => EspeakNG.Initialize_argument Scenario.lib_fails)) []
  = (Aborted, [espeak_ng_Initialize]).
Proof.
  exact (error_context_serves_one_call Scenario.lib_fails Z
           (EspeakNG.Initialize_argument Scenario.lib_fails)
           268435967 [] eq_refl).
Defined.

(** X7: [sdl2::service(flags)] calls [SDL_SetMainReady] first exactly when
    [SDL_MAIN_HANDLED] is defined, then [SDL_Init(flags)]; it returns
    exactly when [SDL_Init] answers 0. Otherwise it asks [SDL_GetError],
    after the failed [SDL_Init], writes the answer and a line feed to
    [stderr], and raises; [SDL_Quit] is not among its calls. *)
Theorem sdl_service_constructor_calls
    (lib : libraries) (main_handled : bool) (flags : Z) (w : log) :
  let w0 := w ++ (if main_handled then [SDL_SetMainReady] else []) in
  let w1 := w0 ++ [SDL_Init flags] in
  let r := SDL2.service_constructor lib main_handled flags w in
  fst r = (if bool_decide (Init_answer lib w0 flags = 0)
           then Returned SDL2.Build_service
           else Raised "SDL2 error")
  /\ snd r
     = w1 ++ (if bool_decide (Init_answer lib w0 flags = 0) then []
              else [SDL_GetError;
                    fprintf stderr
                      (String.append (GetError_answer lib w1) newline)])
  /\ calls_of SDL_Quit (snd r) = calls_of SDL_Quit w.
Proof.
  intros w0 w1 r. subst w0 w1 r.
  rewrite sdl_service_constructor_eval. cbv zeta.
  assert (E0 : (if main_handled then w ++ [SDL_SetMainReady] else w)
               = w ++ (if main_handled then [SDL_SetMainReady] else [])).
  { destruct main_handled; [reflexivity | rewrite app_nil_r; reflexivity]. }
  rewrite E0.
  assert (Ed : bool_decide
                 (0 = Init_answer lib
                        (w ++ (if main_handled then [SDL_SetMainReady] else []))
                        flags)
               = bool_decide
                   (Init_answer lib
                      (w ++ (if main_handled then [SDL_SetMainReady] else []))
                      flags = 0)).
  { apply bool_decide_ext. split; intros E; symmetry; exact E. }
  rewrite Ed.
  destruct (bool_decide (Init_answer lib _ flags = 0)); simpl;
    (split; [reflexivity | split; [rewrite ?app_nil_r; reflexivity |]]);
    destruct main_handled; count_calls.
Qed.

Lemma sdl_with_service_eval {A : Type} (lib : libraries)
    (main_handled : bool) (flags : Z)
    (body : M (SDL2.service * log) A) (w : log) :
  let w0 := if main_handled then w ++ [SDL_SetMainReady] else w in
  let w1 := w0 ++ [SDL_Init flags] in
  left_scope (fst (body (SDL2.Build_service, w1))) = true ->
  SDL2.with_service lib main_handled flags body w
  = if bool_decide (0 = Init_answer lib w0 flags)
    then (fst (body (SDL2.Build_service, w1)),
          snd (snd (body (SDL2.Build_service, w1))) ++ [SDL_Quit])
    else (Raised "SDL2 error",
          w1 ++ [SDL_GetError;
                 fprintf stderr
                   (String.append (GetError_answer lib w1) newline)]).
Proof.
  intros w0 w1 Hleft. subst w0 w1. unfold SDL2.with_service.
  pose proof (sdl_service_constructor_eval lib main_handled flags w) as E.
  cbv zeta in E.
  destruct (bool_decide (0 = Init_answer lib _ flags)).
  - rewrite (scoped_left _ _ _ _ _ _ E Hleft). reflexivity.
  - apply scoped_constructor_raises. exact E.
Qed.

Lemma espeak_with_service_eval {A : Type} (lib : libraries)
    (order : argument_order)
    (body : M (EspeakNG.service * log) A) (w : log) :
  fst (Initialize_answer lib w) = ENS_OK ->
  let w1 := w ++ [espeak_ng_Initialize;
                  espeak_ng_ClearErrorContext (snd (Initialize_answer lib w))] in
  left_scope (fst (body (EspeakNG.Build_service, w1))) = true ->
  EspeakNG.with_service lib order body w
  = (fst (body (EspeakNG.Build_service, w1)),
     snd (snd (body (EspeakNG.Build_service, w1))) ++ [espeak_ng_Terminate]).
Proof.
  intros Hok w1 Hleft. subst w1. unfold EspeakNG.with_service.
  pose proof (espeak_service_constructor_eval lib order w) as E.
  destruct (Initialize_answer lib w) as [status written]; simpl in *.
  rewrite bool_decide_eq_true_2 in E by exact Hok.
  rewrite (scoped_left _ _ _ _ _ _ E Hleft). reflexivity.
Qed.

(** X8: the two services compose as [main] nests them, the eSpeak NG
    service outside and the SDL2 service inside. Once eSpeak NG is
    initialised: if [SDL_Init] fails, the error leaves the blocks with
    [espeak_ng_Terminate] as the last call and no [SDL_Quit]; if it
    succeeds and the code inside returns or raises, the blocks end with
    [SDL_Quit] and then [espeak_ng_Terminate], the reverse of the order of
    initialisation. *)
Theorem services_end_in_reverse_order
    (lib : libraries) (order : argument_order) (main_handled : bool)
    (flags : Z) (A : Type) (body : M (SDL2.service * log) A) (w : log) :
  let w_e := w ++ [espeak_ng_Initialize;
                   espeak_ng_ClearErrorContext (snd (Initialize_answer lib w))] in
  let w0 := if main_handled then w_e ++ [SDL_SetMainReady] else w_e in
  let w_s := w0 ++ [SDL_Init flags] in
  let b := body (SDL2.Build_service, w_s) in
  fst (Initialize_answer lib w) = ENS_OK ->
  left_scope (fst b) = true ->
  EspeakNG.with_service lib order
    (outer (SDL2.with_service lib main_handled flags body)) w
  = if bool_decide (0 = Init_answer lib w0 flags)
    then (fst b, snd (snd b) ++ [SDL_Quit; espeak_ng_Terminate])
    else (Raised "SDL2 error",
          w_s ++ [SDL_GetError;
                  fprintf stderr
                    (String.append (GetError_answer lib w_s) newline);
                  espeak_ng_Terminate]).
Proof.
  intros w_e w0 w_s b Hok Hleft. subst b.
  pose proof (sdl_with_service_eval lib main_handled flags body w_e Hleft)
    as Es.
  change (if main_handled then w_e ++ [SDL_SetMainReady] else w_e)
    with w0 in Es.
  assert (Hinner :
    outer (T := EspeakNG.service)
      (SDL2.with_service lib main_handled flags body)
      (EspeakNG.Build_service, w_e)
    = (fst (SDL2.with_service lib main_handled flags body w_e),
       (EspeakNG.Build_service,
        snd (SDL2.with_service lib main_handled flags body w_e)))).
  { unfold outer. simpl.
    destruct (SDL2.with_service lib main_handled flags body w_e).
    reflexivity. }
  rewrite (espeak_with_service_eval lib order _ w Hok); fold w_e;
    rewrite Hinner; simpl; rewrite Es.
  - destruct (bool_decide (0 = Init_answer lib w0 flags)); simpl;
      rewrite <- app_assoc; reflexivity.
  - destruct (bool_decide (0 = Init_answer lib w0 flags)); simpl;
      [exact Hleft | reflexivity].
Qed.

Lemma services_end_in_reverse_order_witness :
  EspeakNG.with_service Scenario.lib_succeeds RightToLeft
    (outer (SDL2.with_service Scenario.lib_succeeds true 16
              Scenario.later_error)) []
  = (Raised "later error",
     [espeak_ng_Initialize; espeak_ng_ClearErrorContext 0;
      SDL_SetMainReady; SDL_Init 16; SDL_Quit; espeak_ng_Terminate]).
Proof.
  exact (services_end_in_reverse_order Scenario.lib_succeeds RightToLeft
           true 16 unit Scenario.later_error [] eq_refl eq_refl).
Defined.

(** ** main.cpp: the synthesis callback *)

Lemma to_Uint32_twice (numsamples : Z) :
  0 <= numsamples < 2 ^ 31 ->
  Main.to_Uint32 (numsamples * 2) = numsamples * 2.
Proof. intros Hn. unfold Main.to_Uint32. apply Z.mod_small. lia. Qed.

(** X9: given an event list with terminator [e] and a sample count from 0
    to [2^30 - 1], so that twice the count fits an [int], the callback
    makes no call at all when the buffer is null, when the sample count is
    0, or when the terminator carries no device. Otherwise it calls
    [SDL_QueueAudio] once, on the device that the terminator points to,
    with the buffer and a byte length of twice the sample count, and makes
    a further call only to report a failure of that one. *)
Theorem SynthCallback_queues_one_buffer
    (lib : libraries) (wav numsamples : Z)
    (events : list Main.espeak_EVENT) (e : Main.espeak_EVENT) (w : log) :
  Main.terminator events = Some e ->
  0 <= numsamples < 2 ^ 30 ->
  Main.SynthCallback lib wav numsamples (Some events) w
  = match Main.user_data e with
    | Some audio_device =>
        if bool_decide (wav = nullptr) || bool_decide (numsamples = 0)
        then (Returned 0, w)
        else
          let dev := auto_handle_to_handle _ audio_device in
          let w1 := w ++ [SDL_QueueAudio dev wav (numsamples * 2)] in
          if bool_decide
               (QueueAudio_answer lib w dev wav (numsamples * 2) = 0)
          then (Returned 0, w1)
          else (Raised "SDL2 error",
                w1 ++ [SDL_GetError;
                       fprintf stderr
                         (String.append (GetError_answer lib w1) newline)])
    | None => (Returned 0, w)
    end.
Proof.
  intros He Hn.
  rewrite (SynthCallback_eval lib wav numsamples events e w He).
  rewrite (to_Uint32_twice numsamples) by lia.
  rewrite (fits_int_twice numsamples) by lia.
  destruct (Main.user_data e) as [audio_device |].
  - destruct (bool_decide (wav = nullptr)); simpl; [reflexivity |].
    destruct (bool_decide (numsamples = 0)); simpl; [reflexivity |].
    rewrite (bool_decide_ext (0 = QueueAudio_answer lib w
                                    (auto_handle_to_handle _ audio_device)
                                    wav (numsamples * 2))
               (QueueAudio_answer lib w
                  (auto_handle_to_handle _ audio_device)
                  wav (numsamples * 2) = 0))
      by (split; intros E; symmetry; exact E).
    reflexivity.
  - destruct (negb (bool_decide (wav = nullptr))
              && negb (bool_decide (numsamples = 0))); reflexivity.
Qed.

Lemma SynthCallback_queues_one_buffer_witness :
  Main.SynthCallback Scenario.lib_succeeds 8192 2048
    (Some Scenario.word_then_terminator) []
  = (Returned 0, [SDL_QueueAudio 2 8192 4096]).
Proof.
  refine (SynthCallback_queues_one_buffer Scenario.lib_succeeds 8192 2048
            Scenario.word_then_terminator _ [] eq_refl _).
  lia.
Defined.

Lemma terminator_after_others (before after : list Main.espeak_EVENT)
    (e : Main.espeak_EVENT) :
  Forall (fun x => Main.type x <> Main.espeakEVENT_LIST_TERMINATED) before ->
  Main.type e = Main.espeakEVENT_LIST_TERMINATED ->
  Main.terminator (before ++ e :: after) = Some e.
Proof.
  intros Hbefore He. unfold Main.terminator.
  induction Hbefore as [| x before Hx _ IH]; simpl.
  - rewrite bool_decide_eq_true_2 by exact He. reflexivity.
  - rewrite bool_decide_eq_false_2 by exact Hx. exact IH.
Qed.

Lemma terminator_missing (events : list Main.espeak_EVENT) :
  Forall (fun x => Main.type x <> Main.espeakEVENT_LIST_TERMINATED) events ->
  Main.terminator events = None.
Proof.
  intros Hev. unfold Main.terminator.
  induction Hev as [| x events Hx _ IH]; simpl; [reflexivity |].
  rewrite bool_decide_eq_false_2 by exact Hx. exact IH.
Qed.

(** X10: the callback reads the event list up to its first terminator and
    no further: the events before the terminator, their [user_data]
    included, and everything after it make no difference to what the
    callback does. A list without a terminator makes it read past the
    array, and a null list fails its assertion; in both cases it has made
    no call. *)
Theorem SynthCallback_reads_up_to_terminator
    (lib : libraries) (wav numsamples : Z)
    (before after : list Main.espeak_EVENT) (e : Main.espeak_EVENT)
    (w : log) :
  Forall (fun x => Main.type x <> Main.espeakEVENT_LIST_TERMINATED) before ->
  Main.type e = Main.espeakEVENT_LIST_TERMINATED ->
  Main.SynthCallback lib wav numsamples (Some (before ++ e :: after)) w
  = Main.SynthCallback lib wav numsamples (Some [e]) w
  /\ Main.SynthCallback lib wav numsamples (Some before) w = (Undefined, w)
  /\ Main.SynthCallback lib wav numsamples None w = (Aborted, w).
Proof.
  intros Hbefore He. split; [| split].
  - rewrite (SynthCallback_eval lib wav numsamples _ e w
               (terminator_after_others before after e Hbefore He)).
    rewrite (SynthCallback_eval lib wav numsamples [e] e w
               (terminator_after_others [] [] e (Forall_nil _) He)).
    reflexivity.
  - unfold Main.SynthCallback, bind, assert. simpl.
    rewrite for_events_eval, (terminator_missing before Hbefore).
    reflexivity.
  - reflexivity.
Qed.

Lemma SynthCallback_reads_up_to_terminator_witness :
  Main.SynthCallback Scenario.lib_succeeds 8192 1
    (Some Scenario.word_then_terminator) []
  = Main.SynthCallback Scenario.lib_succeeds 8192 1
      (Some [ {| Main.type := Main.espeakEVENT_LIST_TERMINATED;
                 Main.user_data :=
                   Some (auto_handle_from SDL2.audio_device_deleter
                           (nullable_from_handle 2)) |} ]) [].
Proof.
  refine (proj1 (SynthCallback_reads_up_to_terminator Scenario.lib_succeeds
                   8192 1
                   [ {| Main.type := Main.espeakEVENT_WORD;
                        Main.user_data :=
                          Some (auto_handle_from SDL2.audio_device_deleter
                                  (nullable_from_handle 2)) |} ]
                   [] _ [] _ _)).
  - repeat constructor. discriminate.
  - reflexivity.
Defined.

(** ** main.cpp: the program *)

Section RunShapeFacts.
Import Program RunShape.

Lemma header_calls_app (d1 d2 : run) :
  header_calls (d1 ++ d2) = header_calls d1 ++ header_calls d2.
Proof. unfold header_calls. apply omap_app. Qed.

Lemma header_calls_inl (w : log) : header_calls (inl <$> w) = w.
Proof.
  induction w as [| c w IH]; [reflexivity |].
  change (c :: header_calls (inl <$> w) = c :: w). rewrite IH. reflexivity.
Qed.

Lemma new_calls_app (w new : log) : new_calls w (w ++ new) = inl <$> new.
Proof. unfold new_calls. rewrite drop_app_length. reflexivity. Qed.

Lemma new_calls_same (w : log) : new_calls w w = [].
Proof.
  rewrite <- (app_nil_r w) at 2. rewrite new_calls_app. reflexivity.
Qed.

Context {S : Type} `{HasRun S}.
Variable ok : c_call + main_call -> Prop.

Lemma appends_ret {A} (a : A) : appends ok (ret (W := S) a).
Proof. intros s. exists []. rewrite app_nil_r. split; [reflexivity | constructor]. Qed.

Lemma appends_bind {A B} (c : M S A) (k : A -> M S B) :
  appends ok c -> (forall a, appends ok (k a)) -> appends ok (bind c k).
Proof.
  intros Hc Hk s. unfold bind.
  destruct (Hc s) as (new1 & E1 & F1).
  destruct (c s) as [[a | what | |] s1]; simpl in E1;
    try (exists new1; split; [exact E1 | exact F1]).
  destruct (Hk a s1) as (new2 & E2 & F2).
  exists (new1 ++ new2). rewrite E2, E1, app_assoc.
  split; [reflexivity | apply Forall_app; split; assumption].
Qed.

Lemma appends_outer {T A} (c : M S A) :
  appends ok c -> appends ok (outer (T := T) c).
Proof.
  intros Hc [t s]. unfold outer. simpl.
  destruct (Hc s) as (new & E & F).
  destruct (c s) as [r s1]. exists new. split; assumption.
Qed.

Lemma appends_this_object {T} : appends ok (this_object (T := T) (W := S)).
Proof. intros s. exists []. rewrite app_nil_r. split; [reflexivity | constructor]. Qed.

Lemma appends_set_object {T} (t : T) : appends ok (set_object (W := S) t).
Proof.
  intros [t0 s]. exists []. rewrite app_nil_r.
  split; [reflexivity | constructor].
Qed.

Lemma appends_scoped {T A} (ctor : M S T) (dtor : T -> S -> S)
    (body : M (T * S) A) :
  appends ok ctor -> appends ok body ->
  (forall obj s, exists new,
      run_of (dtor obj s) = run_of s ++ new /\ Forall ok new) ->
  appends ok (scoped ctor dtor body).
Proof.
  intros Hc Hb Hd s. unfold scoped.
  destruct (Hc s) as (new1 & E1 & F1).
  destruct (ctor s) as [[obj | what | |] s1]; simpl in E1;
    try (exists new1; split; [exact E1 | exact F1]).
  destruct (Hb (obj, s1)) as (new2 & E2 & F2).
  destruct (body (obj, s1)) as [rb [obj' s2]].
  change (run_of s2 = run_of s1 ++ new2) in E2.
  destruct rb as [a | what | |]; simpl;
    try (exists (new1 ++ new2); rewrite E2, E1, app_assoc;
         split; [reflexivity | apply Forall_app; split; assumption]).
  - destruct (Hd obj' s2) as (new3 & E3 & F3).
    exists (new1 ++ new2 ++ new3). rewrite E3, E2, E1, !app_assoc.
    split; [reflexivity | rewrite !Forall_app; auto].
  - destruct (Hd obj' s2) as (new3 & E3 & F3).
    exists (new1 ++ new2 ++ new3). rewrite E3, E2, E1, !app_assoc.
    split; [reflexivity | rewrite !Forall_app; auto].
Qed.

Lemma appends_ends_with {A} (tails : outcome A -> run -> Prop) (c : M S A) :
  appends ok c -> (forall r, tails r []) -> ends_with ok tails c.
Proof.
  intros Hc Ht s. destruct (Hc s) as (new & E & F).
  exists new, []. rewrite app_nil_r. auto.
Qed.

Lemma ends_with_bind {A B} (tails : outcome B -> run -> Prop)
    (c : M S A) (k : A -> M S B) :
  appends ok c -> (forall a, ends_with ok tails (k a)) ->
  (forall what, tails (Raised what) []) ->
  tails Aborted [] -> tails Undefined [] ->
  ends_with ok tails (bind c k).
Proof.
  intros Hc Hk Hr Ha Hu s. unfold bind.
  destruct (Hc s) as (new1 & E1 & F1).
  destruct (c s) as [[a | what | |] s1]; simpl in E1;
    try (exists new1, []; rewrite app_nil_r;
         split; [exact E1 | split; [exact F1 | simpl; auto]]).
  destruct (Hk a s1) as (pre & tail & E2 & F2 & T2).
  exists (new1 ++ pre), tail. rewrite E2, E1, !app_assoc.
  split; [reflexivity | split; [apply Forall_app; auto | exact T2]].
Qed.

Lemma ends_with_scoped {T A} (x : c_call + main_call)
    (body_tails : outcome A -> run -> Prop)
    (ctor : M S T) (dtor : T -> S -> S) (body : M (T * S) A) :
  appends ok ctor -> ends_with ok body_tails body ->
  (forall obj s, run_of (dtor obj s) = run_of s ++ [x]) ->
  ends_with ok (block_tails x body_tails) (scoped ctor dtor body).
Proof.
  intros Hc Hb Hd s. unfold scoped.
  destruct (Hc s) as (new1 & E1 & F1).
  destruct (ctor s) as [[obj | what | |] s1]; simpl in E1;
    try (exists new1, []; rewrite app_nil_r; simpl;
         split; [exact E1 | split; [exact F1 |]];
         left; split; [reflexivity | discriminate]).
  destruct (Hb (obj, s1)) as (pre & tail & E2 & F2 & T2).
  destruct (body (obj, s1)) as [rb [obj' s2]].
  change (run_of s2 = run_of s1 ++ pre ++ tail) in E2. simpl in T2.
  destruct rb as [a | what | |]; simpl.
  - exists (new1 ++ pre), (tail ++ [x]). rewrite Hd, E2, E1, !app_assoc.
    split; [reflexivity | split; [apply Forall_app; auto |]].
    right. exists tail. auto.
  - exists (new1 ++ pre), (tail ++ [x]). rewrite Hd, E2, E1, !app_assoc.
    split; [reflexivity | split; [apply Forall_app; auto |]].
    right. exists tail. auto.
  - exists (new1 ++ pre), tail. rewrite E2, E1, !app_assoc.
    split; [reflexivity | split; [apply Forall_app; auto |]].
    right. exists tail. auto.
  - exists (new1 ++ pre), tail. rewrite E2, E1, !app_assoc.
    split; [reflexivity | split; [apply Forall_app; auto |]].
    right. exists tail. auto.
Qed.

End RunShapeFacts.

Section ProgramFacts.
Import Program RunShape.

Variable libs : program_libraries.
Variable order : argument_order.
Variables ENOUTPUT_MODE_SYNCHRONOUS POS_CHARACTER espeakCHARS_AUTO : Z.
Variables SDL_INIT_AUDIO AUDIO_S16LSB : Z.

(** Calls that are not teardown calls. *)
Let ok (c : c_call + main_call) : Prop := ~ teardown c.
Let ok_header (c : c_call) : Prop := ok (inl c).

Ltac not_teardown :=
  repeat constructor;
  let E := fresh in
  unfold ok_header, ok, teardown;
  intros [E | [E | [? E]]]; discriminate E.

Lemma log_appends_throw_if_not_ok (status context : Z) :
  log_appends ok_header (EspeakNG.throw_if_not_ok status context).
Proof.
  intros w. rewrite throw_if_not_ok_eval.
  destruct (bool_decide (status = ENS_OK)); simpl.
  - exists []. rewrite app_nil_r. split; [reflexivity | constructor].
  - eexists. split; [reflexivity | not_teardown].
Qed.

Lemma log_appends_throw_if (lib : libraries) (is_throwing : bool) :
  log_appends ok_header (SDL2.throw_if lib is_throwing).
Proof.
  intros w. rewrite throw_if_eval. destruct is_throwing; simpl.
  - eexists. split; [reflexivity | not_teardown].
  - exists []. rewrite app_nil_r. split; [reflexivity | constructor].
Qed.

Lemma log_appends_espeak_constructor (lib : libraries) :
  log_appends ok_header (EspeakNG.service_constructor lib order).
Proof.
  intros w. rewrite espeak_service_constructor_eval.
  destruct (Initialize_answer lib w) as [status written].
  destruct (bool_decide (status = ENS_OK)); simpl;
    eexists; (split; [reflexivity | not_teardown]).
Qed.

Lemma log_appends_sdl_constructor (lib : libraries) (flags : Z) :
  log_appends ok_header (SDL2.service_constructor lib true flags).
Proof.
  intros w. rewrite sdl_service_constructor_eval. cbv zeta.
  destruct (bool_decide (0 = Init_answer lib _ flags)); simpl;
    rewrite <- ?app_assoc; simpl;
    eexists; (split; [reflexivity | not_teardown]).
Qed.

Lemma log_appends_SynthCallback (lib : libraries) (wav numsamples : Z)
    (events : option (list Main.espeak_EVENT)) :
  log_appends ok_header (Main.SynthCallback lib wav numsamples events).
Proof.
  intros w.
  assert (Hnone : forall r : outcome Z,
             exists new, snd (r, w) = w ++ new /\ Forall ok_header new).
  { intros r. exists []. rewrite app_nil_r.
    split; [reflexivity | constructor]. }
  destruct events as [events |]; [| apply (Hnone Aborted)].
  destruct (Main.terminator events) as [e |] eqn:He.
  - rewrite (SynthCallback_eval lib wav numsamples events e w He).
    destruct (negb (bool_decide (wav = nullptr))
              && negb (bool_decide (numsamples = 0))); [| apply Hnone].
    destruct (Main.user_data e) as [audio_device |]; [| apply Hnone].
    cbv zeta.
    destruct (Main.fits_int (numsamples * 2)); [| apply Hnone].
    destruct (bool_decide (0 = QueueAudio_answer lib w _ wav _)); simpl;
      rewrite <- ?app_assoc; simpl;
      eexists; (split; [reflexivity | not_teardown]).
  - unfold Main.SynthCallback, bind, assert. simpl.
    rewrite for_events_eval, He. apply (Hnone Undefined).
Qed.

Lemma appends_headers {A} (c : libraries -> M log A) :
  (forall lib, log_appends ok_header (c lib)) ->
  appends ok (headers libs c).
Proof.
  intros Hc d. unfold headers.
  destruct (Hc (header_answers libs d) (header_calls d)) as (new & E & F).
  destruct (c (header_answers libs d) (header_calls d)) as [r w'].
  simpl in E. subst w'. exists (inl <$> new).
  rewrite new_calls_app. split; [reflexivity |].
  apply Forall_fmap. exact F.
Qed.

Lemma appends_call_main {A} (c : main_call) (answer : run -> A) :
  appends ok (call_main c answer).
Proof. intros d. exists [inr c]. split; [reflexivity | not_teardown]. Qed.

Lemma appends_fprintf_stderr (text : string) :
  appends ok (fprintf_stderr text).
Proof.
  intros d. exists [inl (fprintf stderr text)].
  split; [reflexivity | not_teardown].
Qed.

Lemma audio_device_destructor_is_silent (a : SDL2.audio_device) (w : log) :
  auto_handle_destructor SDL2.audio_device_deleter a w = w.
Proof.
  apply destructor_releases_nothing.
  intros p w'. apply nullable_deleter_skips_nonnull.
Qed.

Lemma assign_audio_device_eval (id : SDL_AudioDeviceID)
    (a : SDL2.audio_device) (d : run) :
  assign_audio_device id a d
  = (Returned (auto_handle_from SDL2.audio_device_deleter
                 (nullable_from_handle id)), d).
Proof.
  unfold assign_audio_device. rewrite move_assign_transfers.
  rewrite !audio_device_destructor_is_silent, new_calls_same, app_nil_r.
  reflexivity.
Qed.

Lemma appends_assign_audio_device (id : SDL_AudioDeviceID)
    (a : SDL2.audio_device) :
  appends ok (assign_audio_device id a).
Proof.
  intros d. rewrite assign_audio_device_eval. exists [].
  rewrite app_nil_r. split; [reflexivity | constructor].
Qed.

Lemma appends_run_callback (a : SDL2.audio_device)
    (args : callback_arguments) :
  appends ok (run_callback libs a args).
Proof.
  intros d. unfold run_callback.
  destruct (appends_headers
              (fun lib => Main.SynthCallback lib (cb_wav args)
                            (cb_numsamples args)
                            (option_map (callback_events a) (cb_events args)))
              (fun lib => log_appends_SynthCallback lib _ _ _) d)
    as (new & E & F).
  destruct (headers libs _ d) as [[v | what | |] d']; exists new; auto.
Qed.

Lemma appends_run_callbacks (a : SDL2.audio_device)
    (calls : list callback_arguments) :
  appends ok (run_callbacks libs a calls).
Proof.
  induction calls as [| args rest IH]; simpl.
  - apply appends_ret.
  - apply appends_bind; [apply appends_run_callback |].
    intros v. destruct (bool_decide (v = 0)); [exact IH | apply appends_ret].
Qed.

Lemma appends_call_with_callbacks (c : main_call)
    (callbacks : run -> list callback_arguments)
    (answer : run -> Z) (a : SDL2.audio_device) :
  appends ok (call_with_callbacks libs c callbacks answer a).
Proof.
  intros d. unfold call_with_callbacks, bind.
  destruct (appends_run_callbacks a (callbacks d) (d ++ [inr c]))
    as (new & E & F).
  destruct (run_callbacks libs a (callbacks d) (d ++ [inr c]))
    as [[u | what | |] d']; unfold run_of, run_has_run in *; simpl in *;
    exists (inr c :: new); rewrite E, <- app_assoc;
    (split; [reflexivity | constructor; [not_teardown | exact F]]).
Qed.

(** Solves [appends ok c] for the straight-line code of [main]. *)
Ltac appends_step :=
  first
    [ apply appends_outer
    | apply appends_ret
    | apply appends_this_object
    | apply appends_set_object
    | apply appends_call_main
    | apply appends_fprintf_stderr
    | apply appends_assign_audio_device
    | apply appends_call_with_callbacks
    | apply appends_headers; intros ?;
      first [ apply log_appends_throw_if_not_ok
            | apply log_appends_throw_if
            | apply log_appends_espeak_constructor
            | apply log_appends_sdl_constructor ]
    | apply appends_bind; [| intros ?] ].

Lemma appends_main_with_device (sample_rate : Z) :
  appends ok
    (main_with_device libs POS_CHARACTER espeakCHARS_AUTO AUDIO_S16LSB
       sample_rate).
Proof. unfold main_with_device, in_main. repeat appends_step. Qed.

Lemma headers_destructor_one_call (c : c_call) (d : run) :
  headers_destructor (record_call c) d = d ++ [inl c].
Proof.
  unfold headers_destructor, record_call. rewrite new_calls_app.
  reflexivity.
Qed.

Lemma headers_destructor_audio_device (a : SDL2.audio_device) (d : run) :
  headers_destructor
    (auto_handle_destructor SDL2.audio_device_deleter a) d = d.
Proof.
  unfold headers_destructor.
  rewrite audio_device_destructor_is_silent, new_calls_same, app_nil_r.
  reflexivity.
Qed.

Lemma block_tails_nil {A} (x : c_call + main_call)
    (body_tails : outcome A -> run -> Prop) (r : outcome A) :
  (forall v, r <> Returned v) -> block_tails x body_tails r [].
Proof. intros Hr. left. split; [reflexivity | exact Hr]. Qed.

(** Solves [ends_with ok (block_tails ...) c] for code that ends in a
    block. *)
Ltac ends_with_step :=
  apply ends_with_bind;
  [ repeat appends_step
  | intros ?
  | intros ?; apply block_tails_nil; discriminate
  | apply block_tails_nil; discriminate
  | apply block_tails_nil; discriminate ].

Lemma ends_with_main_with_service :
  ends_with ok (block_tails (inl SDL_Quit) no_tail)
    (main_with_service libs ENOUTPUT_MODE_SYNCHRONOUS POS_CHARACTER
       espeakCHARS_AUTO SDL_INIT_AUDIO AUDIO_S16LSB).
Proof.
  unfold main_with_service.
  do 6 ends_with_step.
  apply ends_with_scoped.
  - repeat appends_step.
  - apply appends_ends_with; [| reflexivity].
    apply appends_scoped.
    + apply appends_ret.
    + apply appends_main_with_device.
    + intros obj st. exists []. rewrite app_nil_r.
      split; [| constructor].
      unfold run_of, block_has_run, run_of, run_has_run. simpl.
      apply headers_destructor_audio_device.
  - intros obj st.
    unfold run_of, block_has_run, run_of, run_has_run. simpl.
    apply headers_destructor_one_call.
Qed.

Lemma ends_with_main :
  ends_with ok
    (block_tails (inl espeak_ng_Terminate)
       (block_tails (inl SDL_Quit) no_tail))
    (main libs order ENOUTPUT_MODE_SYNCHRONOUS POS_CHARACTER
       espeakCHARS_AUTO SDL_INIT_AUDIO AUDIO_S16LSB).
Proof.
  unfold main.
  do 2 ends_with_step.
  apply ends_with_scoped.
  - repeat appends_step.
  - apply ends_with_main_with_service.
  - intros obj st. apply headers_destructor_one_call.
Qed.

(** X11: in every run of [main], whatever the libraries answer and
    whatever was called before: [SDL_CloseAudioDevice] is never called;
    [SDL_Quit] and [espeak_ng_Terminate] are called only as the last calls
    of the run, at most once each, [SDL_Quit] first. When [main] returns,
    both have been called; when it leaves by an exception (taken to
    unwind the stack), none, [espeak_ng_Terminate] alone, or both; when
    it aborts, none. *)
Theorem main_gives_back_last (d0 : run) :
  let r := main libs order ENOUTPUT_MODE_SYNCHRONOUS POS_CHARACTER
             espeakCHARS_AUTO SDL_INIT_AUDIO AUDIO_S16LSB d0 in
  exists pre tail,
    snd r = d0 ++ pre ++ tail
    /\ Forall (fun c => ~ teardown c) pre
    /\ match fst r with
       | Returned _ => tail = [inl SDL_Quit; inl espeak_ng_Terminate]
       | Raised _ =>
           tail = [] \/ tail = [inl espeak_ng_Terminate]
           \/ tail = [inl SDL_Quit; inl espeak_ng_Terminate]
       | Aborted | Undefined => tail = []
       end.
Proof.
  intros r. subst r.
  destruct (ends_with_main d0) as (pre & tail & E & F & T).
  exists pre, tail. split; [exact E | split; [exact F |]].
  destruct T as [[Et Hr] | (t1 & T1 & Et)].
  { subst tail.
    destruct (fst (main _ _ _ _ _ _ _ d0)) as [v | what | |]; auto.
    exfalso. apply (Hr v). reflexivity. }
  destruct T1 as [[Et1 Hr] | (t2 & T2 & Et1)].
  { subst t1.
    destruct (fst (main _ _ _ _ _ _ _ d0)) as [v | what | |];
      simpl in Et; auto.
    exfalso. apply (Hr v). reflexivity. }
  unfold no_tail in T2. subst t2.
  destruct (fst (main _ _ _ _ _ _ _ d0)) as [v | what | |];
    simpl in Et1; subst t1; simpl in Et; auto.
Qed.

End ProgramFacts.

Section ProgramRuns.
Import Program RunShape.

Variable libs : program_libraries.
Variable order : argument_order.
Variables ENOUTPUT_MODE_SYNCHRONOUS POS_CHARACTER espeakCHARS_AUTO : Z.
Variables SDL_INIT_AUDIO AUDIO_S16LSB : Z.

Lemma bind_returned {S A B} (c : M S A) (k : A -> M S B) (s s1 : S) (a : A) :
  c s = (Returned a, s1) -> bind c k s = k a s1.
Proof. intros E. unfold bind. rewrite E. reflexivity. Qed.

Lemma bind_raised {S A B} (c : M S A) (k : A -> M S B) (s s1 : S)
    (what : string) :
  c s = (Raised what, s1) -> bind c k s = (Raised what, s1).
Proof. intros E. unfold bind. rewrite E. reflexivity. Qed.

Lemma in_main_eval {T1 T2 T3 A} (c : M run A) (t1 : T1) (t2 : T2) (t3 : T3)
    (d d1 : run) (r : outcome A) :
  c d = (r, d1) ->
  in_main c (t1, (t2, (t3, d))) = (r, (t1, (t2, (t3, d1)))).
Proof. intros E. unfold in_main, outer. simpl. rewrite E. reflexivity. Qed.

Lemma outer_eval {T A} (c : M run A) (t : T) (d d1 : run) (r : outcome A) :
  c d = (r, d1) -> outer c (t, d) = (r, (t, d1)).
Proof. intros E. unfold outer. simpl. rewrite E. reflexivity. Qed.

Lemma scoped_eval {T W A} (ctor : M W T) (dtor : T -> W -> W)
    (body : M (T * W) A) (w w1 w2 : W) (obj obj' : T) (r : outcome A) :
  ctor w = (Returned obj, w1) ->
  body (obj, w1) = (r, (obj', w2)) ->
  scoped ctor dtor body w = (r, if left_scope r then dtor obj' w2 else w2).
Proof.
  intros Ec Eb. unfold scoped. rewrite Ec, Eb. destruct r; reflexivity.
Qed.

Lemma headers_eval {A} (c : libraries -> M log A) (d : run)
    (r : outcome A) (new : log) :
  c (header_answers libs d) (header_calls d) = (r, header_calls d ++ new) ->
  headers libs c d = (r, d ++ (inl <$> new)).
Proof.
  intros E. unfold headers. rewrite E, new_calls_app. reflexivity.
Qed.

Lemma headers_throw_if_not_ok_eval (status : Z) (d : run) :
  headers libs (fun _ => EspeakNG.throw_if_not_ok status nullptr) d
  = if bool_decide (status = ENS_OK) then (Returned tt, d)
    else (Raised "eSpeak-NG error",
          d ++ [inl (espeak_ng_PrintStatusCodeMessage status stderr nullptr)]).
Proof.
  destruct (bool_decide (status = ENS_OK)) eqn:E.
  - rewrite <- (app_nil_r d) at 2. apply (headers_eval _ d _ []).
    rewrite throw_if_not_ok_eval, E, app_nil_r. reflexivity.
  - apply (headers_eval _ d _ [_]).
    rewrite throw_if_not_ok_eval, E. reflexivity.
Qed.

Lemma headers_throw_if_eval (is_throwing : bool) (d : run) :
  headers libs (fun lib => SDL2.throw_if lib is_throwing) d
  = if is_throwing
    then (Raised "SDL2 error",
          d ++ [inl SDL_GetError;
                inl (fprintf stderr
                       (line (GetError_answer (header_answers libs d)
                                (header_calls d))))])
    else (Returned tt, d).
Proof.
  destruct is_throwing.
  - apply (headers_eval _ d _ [_; _]). rewrite throw_if_eval. reflexivity.
  - rewrite <- (app_nil_r d) at 2. apply (headers_eval _ d _ []).
    rewrite throw_if_eval, app_nil_r. reflexivity.
Qed.

Lemma terminator_callback_events (a : SDL2.audio_device)
    (events : list (Main.espeak_EVENT_TYPE * bool)) (carries : bool) :
  terminator_carries events = Some carries ->
  exists t,
    Main.terminator (callback_events a events)
    = Some {| Main.type := t;
              Main.user_data := if carries then Some a else None |}.
Proof.
  unfold terminator_carries, Main.terminator, callback_events.
  induction events as [| [t c] events IH]; simpl; [discriminate |].
  destruct (bool_decide (t = Main.espeakEVENT_LIST_TERMINATED)); simpl.
  - intros E. injection E as E. subst c. eauto.
  - exact IH.
Qed.

Section Queueing.
Hypothesis Hq :
  forall d w dev wav len,
    QueueAudio_answer (header_answers libs d) w dev wav len = 0.

Lemma run_callback_eval (a : SDL2.audio_device) (args : callback_arguments)
    (d : run) :
  well_formed args ->
  run_callback libs a args d
  = (Returned 0,
     d ++ queued_by (auto_handle_to_handle SDL2.audio_device_deleter a) args).
Proof.
  intros ((events & carries & Hev & Hc) & Hn).
  destruct (terminator_callback_events a events carries Hc) as [t Ht].
  unfold run_callback, queued_by. rewrite Hev, Hc. simpl option_map.
  match goal with
  | |- match headers libs ?c d with _ => _ end = (_, d ++ ?q) =>
      assert (E : exists new, q = inl <$> new
                /\ c (header_answers libs d) (header_calls d)
                   = (Returned 0, header_calls d ++ new))
  end.
  { rewrite (SynthCallback_eval _ _ _ _ _ _ Ht). simpl Main.user_data.
    rewrite (fits_int_twice _ Hn).
    destruct carries, (bool_decide (cb_wav args = nullptr)),
      (bool_decide (cb_numsamples args = 0)); simpl;
      first [ exists []; rewrite app_nil_r; split; reflexivity
            | eexists [_]; split; [reflexivity |];
              rewrite Hq; reflexivity ]. }
  destruct E as (new & Eq & Ec). rewrite Eq.
  rewrite (headers_eval _ d _ new Ec). reflexivity.
Qed.

Lemma run_callbacks_eval (a : SDL2.audio_device)
    (calls : list callback_arguments) (d : run) :
  Forall well_formed calls ->
  run_callbacks libs a calls d
  = (Returned tt,
     d ++ queued (auto_handle_to_handle SDL2.audio_device_deleter a) calls).
Proof.
  intros Hcalls. revert d.
  induction Hcalls as [| args rest Hargs _ IH]; intros d; simpl.
  - rewrite app_nil_r. reflexivity.
  - rewrite (bind_returned _ _ _ _ _ (run_callback_eval a args d Hargs)).
    simpl. rewrite IH, <- app_assoc. reflexivity.
Qed.

Lemma call_with_callbacks_eval (c : main_call)
    (callbacks : run -> list callback_arguments) (answer : run -> Z)
    (a : SDL2.audio_device) (calls : list callback_arguments) (d : run) :
  callbacks d = calls -> Forall well_formed calls ->
  call_with_callbacks libs c callbacks answer a d
  = (Returned
       (answer
          (d ++ [inr c]
             ++ queued (auto_handle_to_handle SDL2.audio_device_deleter a)
                  calls)),
     d ++ [inr c]
       ++ queued (auto_handle_to_handle SDL2.audio_device_deleter a) calls).
Proof.
  intros Hc Hcalls. unfold call_with_callbacks. rewrite Hc.
  rewrite (bind_returned _ _ _ _ _
             (run_callbacks_eval a calls (d ++ [inr c]) Hcalls)).
  rewrite <- app_assoc. reflexivity.
Qed.

End Queueing.

Section Answers.
Variables context rate id synth_status : Z.
Variable message : string.
Variables synth_calls sync_calls : list callback_arguments.
Hypothesis Hlibs :
  libraries_answer libs context rate id synth_status message
    synth_calls sync_calls.

Let Hqueue :
  forall d w dev wav len,
    QueueAudio_answer (header_answers libs d) w dev wav len = 0.
Proof. destruct Hlibs as (_ & _ & _ & _ & _ & _ & Hq & _). exact Hq. Qed.

Ltac step tac := erewrite bind_returned by tac; cbv beta; cbn [fst snd].
Ltac in_main_step := step ltac:(apply in_main_eval; reflexivity).
Ltac same_runs :=
  unfold ret, run_of_synthesis, run_until_device;
  repeat progress (cbn [app]; rewrite <- ?app_assoc);
  reflexivity.
Ltac object_step := step ltac:(reflexivity).

Hypothesis Hsynth : Forall well_formed synth_calls.
Hypothesis Hsync : Forall well_formed sync_calls.

Lemma main_with_device_eval (a0 : SDL2.audio_device) (t2 : SDL2.service)
    (t3 : EspeakNG.service) (d : run) :
  main_with_device libs POS_CHARACTER espeakCHARS_AUTO AUDIO_S16LSB rate
    (a0, (t2, (t3, d)))
  = let device :=
      auto_handle_from SDL2.audio_device_deleter (nullable_from_handle id) in
    let d1 :=
      d ++ [inr (SDL_OpenAudioDevice nullptr 0
                   {| freq := rate; format := AUDIO_S16LSB;
                      channels := 1; samples := 4096 |} nullptr 0)] in
    let d2 := d1 ++ run_of_synthesis POS_CHARACTER espeakCHARS_AUTO id
                      synth_calls in
    if bool_decide (id = 0)
    then (Raised "SDL2 error",
          (device, (t2, (t3, d1 ++ [inl SDL_GetError;
                                    inl (fprintf stderr (line message))]))))
    else if bool_decide (synth_status = ENS_OK)
    then (Returned 0,
          (device,
           (t2, (t3, d2 ++ [inl (fprintf stderr (line "Syncrhonising."));
                            inr espeak_ng_Synchronize]
                        ++ queued id sync_calls
                        ++ [inl (fprintf stderr (line "Exiting."));
                            inr (SDL_Delay 1500)]))))
    else (Raised "eSpeak-NG error",
          (device,
           (t2, (t3, d2 ++ [inl (espeak_ng_PrintStatusCodeMessage
                                   synth_status stderr nullptr)])))).
Proof.
  destruct Hlibs as (_ & _ & _ & _ & Hopen & Herror & _ & Hsc & Hsa
                     & Hyc & Hya).
  unfold main_with_device.
  in_main_step. rewrite Hopen.
  object_step.
  step ltac:(apply in_main_eval; apply assign_audio_device_eval).
  object_step. object_step.
  assert (Hnull :
    nullable_eq nullable_from_nullptr
      (auto_handle_get SDL2.audio_device_deleter
         (auto_handle_from SDL2.audio_device_deleter
            (nullable_from_handle id)))
    = bool_decide (id = 0)).
  { unfold nullable_eq. apply bool_decide_ext. simpl.
    unfold value_init, Z_value_init. split; intros E; symmetry; exact E. }
  cbv zeta.
  destruct (bool_decide (id = 0)) eqn:Eid.
  { erewrite bind_raised; [reflexivity |].
    apply in_main_eval. rewrite headers_throw_if_eval, Hnull, Herror.
    reflexivity. }
  step ltac:(apply in_main_eval; rewrite headers_throw_if_eval, Hnull;
             reflexivity).
  in_main_step. in_main_step. in_main_step. object_step.
  step ltac:(apply in_main_eval;
             apply (call_with_callbacks_eval Hqueue _ _ _ _ synth_calls);
             [apply Hsc | exact Hsynth]).
  rewrite Hsa. object_step. in_main_step.
  destruct (bool_decide (synth_status = ENS_OK)) eqn:Es.
  2:{ erewrite bind_raised.
      2:{ apply in_main_eval. rewrite headers_throw_if_not_ok_eval, Es.
          reflexivity. }
      same_runs. }
  step ltac:(apply in_main_eval; rewrite headers_throw_if_not_ok_eval, Es;
             reflexivity).
  in_main_step. object_step.
  step ltac:(apply in_main_eval;
             apply (call_with_callbacks_eval Hqueue _ _ _ _ sync_calls);
             [apply Hyc | exact Hsync]).
  rewrite Hya.
  step ltac:(apply in_main_eval; rewrite headers_throw_if_not_ok_eval;
             reflexivity).
  in_main_step. in_main_step.
  same_runs.
Qed.

Ltac outer_step := step ltac:(apply outer_eval; reflexivity).

Lemma headers_sdl_constructor_ok (d : run) :
  headers libs
    (fun lib => SDL2.service_constructor lib true SDL_INIT_AUDIO) d
  = (Returned SDL2.Build_service,
     d ++ [inl SDL_SetMainReady; inl (SDL_Init SDL_INIT_AUDIO)]).
Proof.
  destruct Hlibs as (_ & _ & _ & Hinit & _).
  apply (headers_eval _ d _ [_; _]).
  rewrite sdl_service_constructor_eval. cbv zeta. rewrite Hinit.
  rewrite <- app_assoc. reflexivity.
Qed.

Lemma headers_espeak_constructor_ok (d : run) :
  headers libs (fun lib => EspeakNG.service_constructor lib order) d
  = (Returned EspeakNG.Build_service,
     d ++ [inl espeak_ng_Initialize;
           inl (espeak_ng_ClearErrorContext context)]).
Proof.
  destruct Hlibs as (Hinit & _).
  apply (headers_eval _ d _ [_; _]).
  rewrite espeak_service_constructor_eval, Hinit. reflexivity.
Qed.

Lemma headers_destructor_espeak (this : EspeakNG.service) (d : run) :
  headers_destructor (EspeakNG.service_destructor this) d
  = d ++ [inl espeak_ng_Terminate].
Proof. apply headers_destructor_one_call. Qed.

Lemma headers_destructor_sdl (this : SDL2.service) (d : run) :
  headers_destructor (SDL2.service_destructor this) d = d ++ [inl SDL_Quit].
Proof. apply headers_destructor_one_call. Qed.

(** What [main] leaves behind when it ends, after the calls in [last]. *)
Let finish (r : outcome Z) (d : run) (last : run) : outcome Z * run :=
  (r, d ++ last ++ [inl SDL_Quit; inl espeak_ng_Terminate]).

(** X12: take libraries that answer the same at any time, in which the
    initialisations, [SDL_QueueAudio] and [espeak_ng_Synchronize] succeed,
    the sample rate is [rate] and opening the device gives [id], and
    which call the callback with terminated event lists and with sample
    counts from [-2^30] to [2^30 - 1] only. Then the run of [main] is, in
    this order: the start of eSpeak NG, synchronous output, the sample
    rate, the start of SDL2 audio, and the opening of a mono, 16-bit
    device of 4096 samples at that rate. If no device was opened ([id] is 0), [main] prints the SDL
    error and raises. Otherwise it registers the callback and
    synthesizes "Hello world."; the callback queues its buffers on the
    device during that call; the device is unpaused whatever the
    synthesis answered; a failed synthesis is then reported and raised;
    else [main] synchronizes, waits 1500 ms and returns 0. In each case
    the run ends with [SDL_Quit], then [espeak_ng_Terminate] (for the
    two errors, when the stack is unwound), and the device is not
    closed. *)
Theorem main_run (d0 : run) :
  main libs order ENOUTPUT_MODE_SYNCHRONOUS POS_CHARACTER espeakCHARS_AUTO
    SDL_INIT_AUDIO AUDIO_S16LSB d0
  = let d1 := d0 ++ run_until_device ENOUTPUT_MODE_SYNCHRONOUS
                      SDL_INIT_AUDIO AUDIO_S16LSB context rate in
    let d2 := d1 ++ run_of_synthesis POS_CHARACTER espeakCHARS_AUTO id
                      synth_calls in
    if bool_decide (id = 0)
    then finish (Raised "SDL2 error") d1
           [inl SDL_GetError; inl (fprintf stderr (line message))]
    else if bool_decide (synth_status = ENS_OK)
    then finish (Returned 0) d2
           ([inl (fprintf stderr (line "Syncrhonising."));
             inr espeak_ng_Synchronize]
              ++ queued id sync_calls
              ++ [inl (fprintf stderr (line "Exiting."));
                  inr (SDL_Delay 1500)])
    else finish (Raised "eSpeak-NG error") d2
           [inl (espeak_ng_PrintStatusCodeMessage synth_status stderr
                   nullptr)].
Proof.
  pose proof Hlibs as (_ & Hout & Hrate & _).
  cbv zeta. unfold main.
  destruct (bool_decide (id = 0)) eqn:Eid;
    [| destruct (bool_decide (synth_status = ENS_OK)) eqn:Es].
  all: step ltac:(reflexivity); step ltac:(reflexivity).
  all: erewrite scoped_eval;
    [ | apply headers_espeak_constructor_ok
      | unfold main_with_service;
        outer_step; outer_step; rewrite Hout;
        step ltac:(apply outer_eval;
                   rewrite headers_throw_if_not_ok_eval; reflexivity);
        outer_step; outer_step; rewrite Hrate; outer_step;
        erewrite scoped_eval;
        [ | apply outer_eval; apply headers_sdl_constructor_ok
          | erewrite scoped_eval;
            [ | reflexivity
              | rewrite main_with_device_eval; cbv zeta;
                rewrite Eid, ?Es; reflexivity ];
            cbn [left_scope fst snd]; reflexivity ];
        cbn [left_scope fst snd]; reflexivity ].
  all: unfold finish; cbn [left_scope fst snd];
    rewrite ?headers_destructor_audio_device, headers_destructor_sdl,
      headers_destructor_espeak;
    f_equal; same_runs.
Qed.


End Answers.

(** X13: if [espeak_ng_Initialize] does not answer [ENS_OK], [main] stops
    there: after its first progress line and [espeak_ng_InitializePath]
    it makes the failed call, prints the diagnostic of the status, clears
    the error context (when the stack is unwound) and raises; it makes no
    call to SDL and does not call [espeak_ng_Terminate]. *)
Theorem main_stops_when_initialisation_fails (d0 : run) :
  let d1 := d0 ++ [inl (fprintf stderr (line "Starting eSpeak NG service."));
                   inr (espeak_ng_InitializePath nullptr)] in
  let answer := Initialize_answer (header_answers libs d1) (header_calls d1) in
  fst answer <> ENS_OK ->
  main libs order ENOUTPUT_MODE_SYNCHRONOUS POS_CHARACTER espeakCHARS_AUTO
    SDL_INIT_AUDIO AUDIO_S16LSB d0
  = (Raised "eSpeak-NG error",
     d1 ++ [inl espeak_ng_Initialize;
            inl (espeak_ng_PrintStatusCodeMessage (fst answer) stderr
                   (match order with
                    | LeftToRight => snd answer
                    | RightToLeft => nullptr
                    end));
            inl (espeak_ng_ClearErrorContext (snd answer))]).
Proof.
  intros d1 answer Hfail. unfold main.
  erewrite bind_returned by reflexivity. cbv beta.
  erewrite bind_returned by reflexivity. cbv beta.
  apply scoped_constructor_raises.
  rewrite <- app_assoc. fold d1.
  apply (headers_eval _ d1 _ [_; _; _]).
  rewrite espeak_service_constructor_eval. fold answer.
  destruct answer as [status written]. simpl in *.
  rewrite bool_decide_eq_false_2 by exact Hfail. reflexivity.
Qed.

End ProgramRuns.

Lemma main_run_witness :
  Program.main Program.libs_succeed LeftToRight 1 1 0 16 32784 []
  = (Returned 0,
     RunShape.run_until_device 1 16 32784 0 22050
       ++ RunShape.run_of_synthesis 1 0 2
            [ {| Program.cb_wav := 8192; Program.cb_numsamples := 2048;
                 Program.cb_events :=
                   Some [(Main.espeakEVENT_WORD, true);
                         (Main.espeakEVENT_LIST_TERMINATED, true)] |};
              {| Program.cb_wav := 8192; Program.cb_numsamples := 1024;
                 Program.cb_events :=
                   Some [(Main.espeakEVENT_LIST_TERMINATED, true)] |};
              {| Program.cb_wav := nullptr; Program.cb_numsamples := 0;
                 Program.cb_events :=
                   Some [(Main.espeakEVENT_MSG_TERMINATED, true);
                         (Main.espeakEVENT_LIST_TERMINATED, true)] |} ]
       ++ [ inl (fprintf stderr (Program.line "Syncrhonising."));
            inr Program.espeak_ng_Synchronize;
            inl (fprintf stderr (Program.line "Exiting."));
            inr (Program.SDL_Delay 1500);
            inl SDL_Quit; inl espeak_ng_Terminate ]).
Proof.
  refine (main_run Program.libs_succeed LeftToRight 1 1 0 16 32784
            0 22050 2 ENS_OK EmptyString
            (Program.Synthesize_callbacks Program.libs_succeed []) []
            _ _ _ []).
  - repeat split; reflexivity.
  - repeat (constructor;
            [split; [eexists _, _; split; reflexivity | simpl; lia] |]).
    constructor.
  - constructor.
Defined.

Lemma main_stops_when_initialisation_fails_witness :
  Program.main
    {| Program.header_answers := fun _ => Scenario.lib_fails;
       Program.InitializeOutput_answer := fun _ => ENS_OK;
       Program.GetSampleRate_answer := fun _ => 22050;
       Program.OpenAudioDevice_answer := fun _ _ => 2;
       Program.Synthesize_callbacks := fun _ => [];
       Program.Synthesize_answer := fun _ => ENS_OK;
       Program.Synchronize_callbacks := fun _ => [];
       Program.Synchronize_answer := fun _ => ENS_OK |}
    RightToLeft 1 1 0 16 32784 []
  = (Raised "eSpeak-NG error",
     [ inl (fprintf stderr (Program.line "Starting eSpeak NG service."));
       inr (Program.espeak_ng_InitializePath nullptr);
       inl espeak_ng_Initialize;
       inl (espeak_ng_PrintStatusCodeMessage 268435967 stderr nullptr);
       inl (espeak_ng_ClearErrorContext 4096) ]).
Proof.
  refine (main_stops_when_initialisation_fails _ RightToLeft 1 1 0 16 32784
            [] _).
  discriminate.
Defined.

Section ProgramEnds.
Import Program RunShape.

Lemma ends_in_ret {S A} (P : A -> Prop) (a : A) :
  P a -> ends_in P (ret (W := S) a).
Proof. intros Ha s. exact Ha. Qed.

Lemma ends_in_bind {S A B} (P : B -> Prop) (c : M S A) (k : A -> M S B) :
  ends_in (fun _ => True) c -> (forall a, ends_in P (k a)) ->
  ends_in P (bind c k).
Proof.
  intros Hc Hk s. unfold bind. specialize (Hc s).
  destruct (c s) as [[a | what | |] s1]; simpl in *; auto.
  apply Hk.
Qed.

Lemma ends_in_outer {T S A} (P : A -> Prop) (c : M S A) :
  ends_in P c -> ends_in P (outer (T := T) c).
Proof.
  intros Hc [t s]. unfold outer. simpl. specialize (Hc s).
  destruct (c s) as [r s1]. exact Hc.
Qed.

Lemma ends_in_scoped {T S A} (P : A -> Prop) (ctor : M S T)
    (dtor : T -> S -> S) (body : M (T * S) A) :
  ends_in (fun _ => True) ctor -> ends_in P body ->
  ends_in P (scoped ctor dtor body).
Proof.
  intros Hc Hb s. unfold scoped. specialize (Hc s).
  destruct (ctor s) as [[obj | what | |] s1]; simpl in *; auto.
  specialize (Hb (obj, s1)).
  destruct (body (obj, s1)) as [[a | what | |] [obj' s2]]; simpl in *; auto.
Qed.

Variable libs : program_libraries.
Variable order : argument_order.
Variables ENOUTPUT_MODE_SYNCHRONOUS POS_CHARACTER espeakCHARS_AUTO : Z.
Variables SDL_INIT_AUDIO AUDIO_S16LSB : Z.
Hypothesis Hcallbacks : callbacks_succeed libs.

Lemma ends_in_headers {A} (c : libraries -> M log A) :
  (forall lib, ends_in (fun _ => True) (c lib)) ->
  ends_in (fun _ => True) (headers libs c).
Proof.
  intros Hc d. unfold headers.
  specialize (Hc (header_answers libs d) (header_calls d)).
  destruct (c (header_answers libs d) (header_calls d)) as [r w'].
  exact Hc.
Qed.

Lemma ends_in_throw_if_not_ok (status context : Z) :
  ends_in (fun _ => True) (EspeakNG.throw_if_not_ok status context).
Proof.
  intros w. rewrite throw_if_not_ok_eval.
  destruct (bool_decide (status = ENS_OK)); simpl; auto.
Qed.

Lemma ends_in_throw_if (lib : libraries) (is_throwing : bool) :
  ends_in (fun _ => True) (SDL2.throw_if lib is_throwing).
Proof.
  intros w. rewrite throw_if_eval. destruct is_throwing; simpl; auto.
Qed.

Lemma ends_in_espeak_constructor (lib : libraries) :
  ends_in (fun _ => True) (EspeakNG.service_constructor lib order).
Proof.
  intros w. rewrite espeak_service_constructor_eval.
  destruct (Initialize_answer lib w) as [status written].
  destruct (bool_decide (status = ENS_OK)); simpl; auto.
Qed.

Lemma ends_in_sdl_constructor (lib : libraries) (flags : Z) :
  ends_in (fun _ => True) (SDL2.service_constructor lib true flags).
Proof.
  intros w. rewrite sdl_service_constructor_eval. cbv zeta.
  destruct (bool_decide (0 = Init_answer lib _ flags)); simpl; auto.
Qed.

Lemma ends_in_call_with_callbacks (c : main_call)
    (callbacks : run -> list callback_arguments) (answer : run -> Z)
    (a : SDL2.audio_device) :
  (forall d, Forall well_formed (callbacks d)) ->
  ends_in (fun _ => True) (call_with_callbacks libs c callbacks answer a).
Proof.
  intros Hwf d. destruct Hcallbacks as (_ & _ & Hq).
  rewrite (call_with_callbacks_eval libs Hq c callbacks answer a
             (callbacks d) d eq_refl (Hwf d)).
  exact I.
Qed.

Lemma ends_in_simple {S A} (c : M S A) :
  (forall s, exists a, fst (c s) = Returned a) ->
  ends_in (fun _ => True) c.
Proof. intros Hc s. destruct (Hc s) as [a E]. rewrite E. exact I. Qed.

(** Solves [ends_in P c] for the straight-line code of [main]. *)
Ltac ends_in_step :=
  lazymatch goal with
  | |- ends_in _ (bind _ _) => apply ends_in_bind; [| intros ?]
  | |- ends_in _ (scoped _ _ _) => apply ends_in_scoped
  | |- ends_in _ (outer _) => apply ends_in_outer
  | |- ends_in _ (ret _) => apply ends_in_ret; reflexivity
  | |- ends_in _ (call_with_callbacks _ _ _ _ _) =>
      apply ends_in_call_with_callbacks; apply Hcallbacks
  | |- ends_in _ (headers _ _) =>
      apply ends_in_headers; intros ?;
      first [ apply ends_in_throw_if_not_ok
            | apply ends_in_throw_if
            | apply ends_in_espeak_constructor
            | apply ends_in_sdl_constructor ]
  | |- ends_in _ (assign_audio_device _ _) =>
      apply ends_in_simple; intros ?; rewrite assign_audio_device_eval;
      eexists; reflexivity
  | |- ends_in _ _ => apply ends_in_simple; intros ?; eexists; reflexivity
  end.

(** X14: provided the library calls the callback only with terminated
    event lists and with sample counts from [-2^30] to [2^30 - 1], so that
    twice the count fits an [int], and [SDL_QueueAudio] does not fail,
    [main] ends in one of three ways, whatever else the libraries answer:
    it returns 0, it raises "eSpeak-NG error", or it raises "SDL2 error".
    It does not abort, and its behaviour is defined. *)
Theorem main_returns_0_or_raises (d0 : run) :
  let r := fst (main libs order ENOUTPUT_MODE_SYNCHRONOUS POS_CHARACTER
                  espeakCHARS_AUTO SDL_INIT_AUDIO AUDIO_S16LSB d0) in
  r = Returned 0 \/ r = Raised "eSpeak-NG error" \/ r = Raised "SDL2 error".
Proof.
  assert (Hmain : ends_in (fun v => v = 0)
                    (main libs order ENOUTPUT_MODE_SYNCHRONOUS POS_CHARACTER
                       espeakCHARS_AUTO SDL_INIT_AUDIO AUDIO_S16LSB)).
  { unfold main, main_with_service, main_with_device, in_main.
    repeat ends_in_step. }
  intros r. subst r. specialize (Hmain d0).
  destruct (fst (main _ _ _ _ _ _ _ d0)) as [v | what | |];
    [left; congruence | | contradiction | contradiction].
  destruct Hmain as [E | E]; subst what; auto.
Qed.

End ProgramEnds.

Lemma main_returns_0_or_raises_witness :
  let r := fst (Program.main Program.libs_succeed RightToLeft
                  1 1 0 16 32784 []) in
  r = Returned 0 \/ r = Raised "eSpeak-NG error" \/ r = Raised "SDL2 error".
Proof.
  refine (main_returns_0_or_raises Program.libs_succeed RightToLeft
            1 1 0 16 32784 _ []).
  unfold RunShape.callbacks_succeed. simpl.
  split; [| split; [intros d; constructor | reflexivity]].
  intros d.
  repeat (constructor;
          [split; [eexists _, _; split; reflexivity | simpl; lia] |]).
  constructor.
Defined.
